(** * FreeDiscovery categorization: the nearest-neighbour ranking engine

    A shallow embedding of [freediscovery/categorization.py].

    Conventions of the embedding.
    - numpy [float64] arrays are lists of exact rationals [Q]; rounding,
      infinities and NaN are outside the model.  Every concrete value used
      below is a dyadic rational on which float64 arithmetic is exact.
    - numpy integer arrays are lists of [Z].  Row positions stay far inside
      the 64-bit range; for document ids, which the caller chooses, the
      dtype that numpy picks and the 64-bit range are followed explicitly
      (see [Np.ndarray]).
    - A Python exception is a value of [exn]; a call that may raise returns
      a [result].
    - scikit-learn is external: its validation routine, its spatial index
      and its distance routine are Section variables. *)

From Stdlib Require Import String Bool ZArith QArith Qabs Lia Lqa List Sorted Permutation.
Import ListNotations.

Local Open Scope Z_scope.

(** ** Exceptions and the error monad *)

Inductive exn : Type :=
| ValueError (msg : string)
| IndexError
| ZeroDivisionError
| AttributeError
| NotFittedError
| WrongParameter (msg : string)
| NotImplementedFD (msg : string)
| OptionalDependencyMissing (pkg : string)
| ImportError (pkg : string)
| OverflowError.

Inductive result (A : Type) : Type :=
| Ok (a : A)
| Raise (e : exn).

Arguments Ok {A} a.
Arguments Raise {A} e.

Definition bind {A B : Type} (m : result A) (k : A -> result B) : result B :=
  match m with
  | Ok a => k a
  | Raise e => Raise e
  end.

Declare Scope result_scope.
Delimit Scope result_scope with result.
Notation "x <- m ;; k" := (bind m (fun x => k))
  (at level 61, m at next level, right associativity) : result_scope.
Notation "' p <- m ;; k" := (bind m (fun x => match x with p => k end))
  (at level 61, p pattern, m at next level, right associativity) : result_scope.
Local Open Scope result_scope.

(** [mapM f l] runs [f] on the elements of [l] from left to right and stops
    at the first exception. *)
Fixpoint mapM {A B : Type} (f : A -> result B) (l : list A) : result (list B) :=
  match l with
  | [] => Ok []
  | x :: l' => y <- f x ;; ys <- mapM f l' ;; Ok (y :: ys)
  end.

(** ** The fragment of Python and numpy that the module uses *)

Module Py.

(** [range(n)]; empty when [n <= 0]. *)
Definition range (n : Z) : list Z := map Z.of_nat (seq 0 (Z.to_nat n)).

(** [a // b] and [a % b] on integers: floor division, the remainder has
    the sign of the divisor, a zero divisor raises. *)
Definition floordiv (a b : Z) : result Z :=
  if b =? 0 then Raise ZeroDivisionError else Ok (a / b).

Definition mod_ (a b : Z) : result Z :=
  if b =? 0 then Raise ZeroDivisionError else Ok (a mod b).

(** A slice bound is clipped into [0, len]; a negative bound counts from
    the end. *)
Definition clip (len i : Z) : nat :=
  Z.to_nat (if i <? 0 then Z.max (i + len) 0 else Z.min i len).

(** [X[start:stop]] (step 1). *)
Definition slice {A : Type} (start stop : Z) (X : list A) : list A :=
  let len := Z.of_nat (length X) in
  skipn (clip len start) (firstn (clip len stop) X).

(** [x in l] for strings. *)
Definition str_in (x : string) (l : list string) : bool :=
  existsb (String.eqb x) l.

End Py.

Module Np.

(** [a > b] and [a <= b] on float scalars. *)
Definition gt (a b : Q) : bool :=
  match Qcompare a b with Gt => true | _ => false end.

Definition le (a b : Q) : bool := Qle_bool a b.

(** [np.arange(n)]. *)
Definition arange (n : nat) : list Z := map Z.of_nat (seq 0 n).

(** [a[i]] for an integer [i]: a negative index counts from the end, an
    index outside [-len, len) raises. *)
Definition getitem {A : Type} (a : list A) (i : Z) : result A :=
  let len := Z.of_nat (length a) in
  let j := if i <? 0 then i + len else i in
  if (0 <=? j) && (j <? len) then
    match nth_error a (Z.to_nat j) with
    | Some x => Ok x
    | None => Raise IndexError
    end
  else Raise IndexError.

(** [a[idx]] for an integer array [idx] (also [X[idx]] on the rows of a
    matrix). *)
Definition take {A : Type} (a : list A) (idx : list Z) : result (list A) :=
  mapM (getitem a) idx.

(** [a[mask]] for a boolean array [mask]: the lengths must agree. *)
Fixpoint mask_select {A : Type} (a : list A) (mask : list bool)
  : result (list A) :=
  match a, mask with
  | [], [] => Ok []
  | x :: a', b :: mask' =>
      r <- mask_select a' mask' ;; Ok (if b then x :: r else r)
  | _, _ => Raise IndexError
  end.

(** [a[:, 0]] on a two-dimensional array given by its rows. *)
Definition col0 {A : Type} (a : list (list A)) : result (list A) :=
  mapM (fun r => match r with x :: _ => Ok x | [] => Raise IndexError end) a.

(** [np.concatenate(arrs, axis=0)]: at least one array is needed. *)
Definition concatenate {A : Type} (arrs : list (list A)) : result (list A) :=
  match arrs with
  | [] => Raise (ValueError "need at least one array to concatenate")
  | _ => Ok (concat arrs)
  end.

(** Broadcasting of two one-dimensional arrays: equal lengths pair up, an
    array of length one is repeated, anything else raises. *)
Definition broadcast2 {A B : Type} (a : list A) (b : list B)
  : result (list (A * B)) :=
  if Nat.eqb (length a) (length b) then Ok (combine a b)
  else match a, b with
       | [x], _ => Ok (map (fun y => (x, y)) b)
       | _, [y] => Ok (map (fun x => (x, y)) a)
       | _, _ => Raise (ValueError "operands could not be broadcast together")
       end.

(** [a > b] and [a <= b] on arrays, and [np.where(cond, a, b)]. *)
Definition gt_arr (a b : list Q) : result (list bool) :=
  p <- broadcast2 a b ;; Ok (map (fun ab => gt (fst ab) (snd ab)) p).

Definition le_arr (a b : list Q) : result (list bool) :=
  p <- broadcast2 a b ;; Ok (map (fun ab => le (fst ab) (snd ab)) p).

Definition where_ {A : Type} (cond : list bool) (a b : list A)
  : result (list A) :=
  ca <- broadcast2 cond a ;;
  cab <- broadcast2 ca b ;;
  Ok (map (fun t : bool * A * A =>
            if fst (fst t) then snd (fst t) else snd t) cab).

(** [a.min()] of a one-dimensional array: an empty array raises. *)
Definition min (a : list Q) : result Q :=
  match a with
  | [] => Raise (ValueError "zero-size array to reduction operation minimum")
  | x :: a' => Ok (fold_left (fun m v => if Qle_bool m v then m else v) a' x)
  end.

(** *** Arrays of document ids and their dtype

    A document id is a Python integer, which has no bound.  The dtype of
    the array that numpy builds from a list of ids depends on the list. *)

(** The values of a signed 64-bit integer. *)
Definition int64 (z : Z) : bool := (- 2 ^ 63 <=? z) && (z <? 2 ^ 63).

(** The float64 nearest to the integer [z], ties going to the even
    significand: 53 significant bits are kept.  (For [|z| < 2 ^ 1024];
    the ids that reach this conversion are 64-bit.) *)
Definition float64_of_int (z : Z) : Z :=
  let a := Z.abs z in
  let e := Z.log2 a - 52 in
  if e <=? 0 then z
  else
    let q := Z.shiftr a e in
    let r := a - Z.shiftl q e in
    let half := Z.shiftl 1 (e - 1) in
    let q' := if r <? half then q
              else if half <? r then q + 1
              else if Z.even q then q else q + 1 in
    Z.sgn z * Z.shiftl q' e.

(** A one-dimensional array with its dtype; an [object] array holds Python
    numbers. *)
Inductive ndarray : Type :=
| Int64 (a : list Z)
| Float64 (a : list Q)
| Object (a : list Q).

(** [np.asarray(ids)] on a list of Python integers.  The empty list gives
    an empty [float64] array; a list of ids that all fit 64 bits gives an
    [int64] array; an id below [- 2 ^ 63] or from [2 ^ 64] on makes it an
    [object] array.  The result is [None] for the lists that the embedding
    does not follow: those whose largest id lies in [[2 ^ 63, 2 ^ 64)],
    where numpy chooses between [uint64] and [float64]. *)
Definition asarray (ids : list Z) : option ndarray :=
  match ids with
  | [] => Some (Float64 [])
  | _ =>
      if forallb int64 ids then Some (Int64 ids)
      else if existsb (fun z => (z <? - 2 ^ 63) || (2 ^ 64 <=? z)) ids
           then Some (Object (map inject_Z ids))
           else None
  end.

(** [np.hstack((a, b))] on one-dimensional arrays: the result has the
    common dtype, [float64] for [int64] with [float64], [object] as soon as
    one of the two is. *)
Definition hstack (a b : ndarray) : ndarray :=
  let as_float := map (fun z => inject_Z (float64_of_int z)) in
  match a, b with
  | Int64 x, Int64 y => Int64 (x ++ y)
  | Int64 x, Float64 y => Float64 (as_float x ++ y)
  | Float64 x, Int64 y => Float64 (x ++ as_float y)
  | Float64 x, Float64 y => Float64 (x ++ y)
  | Int64 x, Object y => Object (map inject_Z x ++ y)
  | Object x, Int64 y => Object (x ++ map inject_Z y)
  | Float64 x, Object y => Object (x ++ y)
  | Object x, Float64 y => Object (x ++ y)
  | Object x, Object y => Object (x ++ y)
  end.

(** The integer part of a number, rounding towards zero. *)
Definition trunc (q : Q) : Z := Z.quot (Qnum q) (Zpos (Qden q)).

(** [np.asarray(a, dtype='int')].  A [float64] value is truncated; C leaves
    the conversion of a value outside the 64-bit range undefined, and the
    result is then [None].  A Python number of an [object] array that does
    not fit 64 bits raises [OverflowError]. *)
Definition asarray_int (a : ndarray) : option (result (list Z)) :=
  match a with
  | Int64 x => Some (Ok x)
  | Float64 x =>
      let v := map trunc x in
      if forallb int64 v then Some (Ok v) else None
  | Object x =>
      let v := map trunc x in
      Some (if forallb int64 v then Ok v else Raise OverflowError)
  end.

End Np.

(** ** Index-remap utilities *)

(** [_zip_relevant]: the ids of the relevant documents followed by the ids
    of the others, with a label array of as many ones and zeros.  Neither
    [np.asarray] is given a dtype, so the id array is [int64] only when
    both lists are non-empty (and their ids fit): an empty list is a
    [float64] array, and [np.hstack] then converts the ids of the other
    list to [float64].  [None]: a list that [Np.asarray] does not follow. *)
Definition _zip_relevant (relevant_id non_relevant_id : list Z)
  : option (Np.ndarray * list Q) :=
  match Np.asarray relevant_id, Np.asarray non_relevant_id with
  | Some a, Some b =>
      let idx_id := Np.hstack a b in
      let y := repeat (inject_Z 1) (length relevant_id)
               ++ repeat (inject_Z 0) (length non_relevant_id) in
      Some (idx_id, y)
  | _, _ => None
  end.

(** [_unzip_relevant] on an integer array of ids, on which the conversion
    [np.asarray(idx_id, dtype='int')] changes nothing: split the ids by the
    mask [y > 0.5]. *)
Definition _unzip_relevant (idx_id : list Z) (y : list Q)
  : result (list Z * list Z) :=
  let mask := map (fun v => Np.gt v (1 # 2)) y in
  pos <- Np.mask_select idx_id mask ;;
  neg <- Np.mask_select idx_id (map negb mask) ;;
  Ok (pos, neg).

(** [_unzip_relevant] on an id array of any dtype: the conversion to
    integers comes first. *)
Definition _unzip_relevant_array (idx_id : Np.ndarray) (y : list Q)
  : option (result (list Z * list Z)) :=
  match Np.asarray_int idx_id with
  | Some converted => Some (ids <- converted ;; _unzip_relevant ids y)
  | None => None
  end.

(** [_unzip_relevant] applied to the two arrays that [_zip_relevant]
    returns. *)
Definition unzip_zip (relevant_id non_relevant_id : list Z)
  : option (result (list Z * list Z)) :=
  match _zip_relevant relevant_id non_relevant_id with
  | Some (idx_id, y) => _unzip_relevant_array idx_id y
  | None => None
  end.

(** ** A state-and-exception monad for methods that assign to [self]

    The state that an action leaves behind is kept when it raises: the
    assignments made before a [raise] remain visible on the object. *)

Definition action (S A : Type) : Type := S -> result A * S.

Definition ret {S A : Type} (a : A) : action S A := fun s => (Ok a, s).

Definition raise {S A : Type} (e : exn) : action S A := fun s => (Raise e, s).

Definition lift {S A : Type} (m : result A) : action S A := fun s => (m, s).

Definition get {S : Type} : action S S := fun s => (Ok s, s).

Definition modify {S : Type} (f : S -> S) : action S unit := fun s => (Ok tt, f s).

Definition bindA {S A B : Type} (m : action S A) (k : A -> action S B)
  : action S B :=
  fun s => match m s with
           | (Ok a, s') => k a s'
           | (Raise e, s') => (Raise e, s')
           end.

Declare Scope action_scope.
Delimit Scope action_scope with action.
Notation "x <~ m ;; k" := (bindA m (fun x => k))
  (at level 61, m at next level, right associativity) : action_scope.
Notation "' p <~ m ;; k" := (bindA m (fun x => match x with p => k end))
  (at level 61, p pattern, m at next level, right associativity) : action_scope.
Notation "m ;;; k" := (bindA m (fun _ => k))
  (at level 61, right associativity) : action_scope.

(** ** The scikit-learn collaborators

    [row] is one row of a sample matrix; a matrix is the list of its rows.
    - [check_array] is [sklearn.utils.validation.check_array].
    - [nn_query1 F x] is the 1-nearest-neighbour query of the single row [x]
      against the fitted rows [F] under the Euclidean metric: the distance
      and the position in [F] of the nearest row.  The index answers every
      row of a batch independently of the others.
    - [distance metric x c] is the entry of
      [sklearn.metrics.pairwise.pairwise_distances] for the pair [(x, c)]. *)

Class Sklearn (row : Type) : Type := {
  check_array : list row -> result (list row);
  nn_query1 : list row -> row -> result (Q * Z);
  distance : string -> row -> row -> result Q
}.

(** [sklearn.neighbors.NearestNeighbors(n_neighbors=1)]: [_fit_method] is
    [None] until [fit] has run. *)
Record NearestNeighbors (row : Type) : Type := {
  _fit_method : option string;
  _fit_X : list row
}.

Arguments _fit_method {row} _.
Arguments _fit_X {row} _.

Definition nn_new (row : Type) : NearestNeighbors row :=
  {| _fit_method := None; _fit_X := [] |}.

Definition nn_fit {row : Type} (X : list row) : NearestNeighbors row :=
  {| _fit_method := Some "brute"%string; _fit_X := X |}.

(** [NearestNeighbors.kneighbors(X)]: two arrays of shape [(n, 1)]. *)
Definition nn_kneighbors {row : Type} {sk : Sklearn row}
  (m : NearestNeighbors row) (X : list row)
  : result (list (list Q) * list (list Z)) :=
  match _fit_method m with
  | None => Raise NotFittedError
  | Some _ =>
      r <- mapM (nn_query1 (_fit_X m)) X ;;
      Ok (map (fun p => [fst p]) r, map (fun p => [snd p]) r)
  end.

(** [pairwise_distances(X, Y, metric)]: entry [(i, j)] is the distance from
    row [i] of [X] to row [j] of [Y]. *)
Definition pairwise_distances {row : Type} {sk : Sklearn row}
  (X Y : list row) (metric : string) : result (list (list Q)) :=
  mapM (fun x => mapM (fun c => distance metric x c) Y) X.

(** ** NearestCentroidRanker *)

Module NearestCentroidRanker.

(** The attributes of [sklearn.neighbors.NearestCentroid] that the method
    reads; [centroids_] exists only after [fit]. *)
Record t (row : Type) : Type := {
  metric : string;
  centroids_ : option (list row)
}.

Arguments metric {row} _.
Arguments centroids_ {row} _.

Definition check_is_fitted {row : Type} (self : t row) : result (list row) :=
  match centroids_ self with
  | None => Raise NotFittedError
  | Some c => Ok c
  end.

Definition decision_function {row : Type} {sk : Sklearn row}
  (self : t row) (X : list row) : result (list Q) :=
  centroids <- check_is_fitted self ;;
  X <- check_array X ;;
  D <- pairwise_distances X centroids (metric self) ;;
  mapM Np.min D.

End NearestCentroidRanker.

(** ** Chunked queries *)

(** The loop of [_chunk_kneighbors] over the batch numbers [ks]; the
    accumulators are [ind_arr] and [dist_arr]. *)
Fixpoint chunk_loop {row D I : Type}
  (func : list row -> result (list D * list I)) (X : list row)
  (batch_size n_samples : Z) (ks : list Z)
  (ind_arr : list (list I)) (dist_arr : list (list D))
  : result (list (list I) * list (list D)) :=
  match ks with
  | [] => Ok (ind_arr, dist_arr)
  | k :: ks' =>
      let X_sl :=
        Py.slice (k * batch_size) (Z.min ((k + 1) * batch_size) n_samples) X in
      '(dist_k, ind_k) <- func X_sl ;;
      chunk_loop func X batch_size n_samples ks'
                 (ind_arr ++ [ind_k]) (dist_arr ++ [dist_k])
  end.

Definition _chunk_kneighbors {row D I : Type}
  (func : list row -> result (list D * list I)) (X : list row)
  (batch_size : Z) : result (list D * list I) :=
  let n_samples := Z.of_nat (length X) in
  q <- Py.floordiv n_samples batch_size ;;
  r <- Py.mod_ n_samples batch_size ;;
  '(ind_arr, dist_arr) <-
    chunk_loop func X batch_size n_samples
               (Py.range (q + (if r =? 0 then 0 else 1))) [] [] ;;
  dist <- Np.concatenate dist_arr ;;
  ind <- Np.concatenate ind_arr ;;
  Ok (dist, ind).

(** ** NearestNeighborRanker *)

Module NearestNeighborRanker.

Local Open Scope Q_scope.

(** The object: the two search structures, the configured mode, and the
    two index arrays, which exist only after [fit]. *)
Record t (row : Type) : Type := {
  _mod_p : NearestNeighbors row;
  _mod_n : NearestNeighbors row;
  ranking_ : string;
  _index_p : option (list Z);
  _index_n : option (list Z)
}.

Arguments _mod_p {row} _.
Arguments _mod_n {row} _.
Arguments ranking_ {row} _.
Arguments _index_p {row} _.
Arguments _index_n {row} _.

(** The additional result data [md]; the keys [ind_n] and [dist_n] are
    present only when the negative index was queried. *)
Record metadata : Type := {
  dist_p : list Q;
  ind_p : list Z;
  ind_n : option (list Z);
  dist_n : option (list Q)
}.

Definition set_index {row : Type} (p n : list Z) (self : t row) : t row :=
  {| _mod_p := _mod_p self; _mod_n := _mod_n self; ranking_ := ranking_ self;
     _index_p := Some p; _index_n := Some n |}.

Definition set_mod_p {row : Type} (m : NearestNeighbors row) (self : t row)
  : t row :=
  {| _mod_p := m; _mod_n := _mod_n self; ranking_ := ranking_ self;
     _index_p := _index_p self; _index_n := _index_n self |}.

Definition set_mod_n {row : Type} (m : NearestNeighbors row) (self : t row)
  : t row :=
  {| _mod_p := _mod_p self; _mod_n := m; ranking_ := ranking_ self;
     _index_p := _index_p self; _index_n := _index_n self |}.

(** Reading an attribute that has not been assigned. *)
Definition attr {A : Type} (a : option A) : result A :=
  match a with
  | Some x => Ok x
  | None => Raise AttributeError
  end.

(** The constructor; [radius], [algorithm], [leaf_size], [n_jobs] and the
    keyword arguments only configure the two scikit-learn objects. *)
Definition __init__ (row : Type) (ranking : string) : result (t row) :=
  let mod_p := nn_new row in
  let mod_n := nn_new row in
  if negb (Py.str_in ranking ["supervised"; "unsupervised"]%string)
  then Raise (ValueError "")
  else Ok {| _mod_p := mod_p; _mod_n := mod_n; ranking_ := ranking;
             _index_p := None; _index_n := None |}.

Definition _ranking_score (d_p : list Q) (d_n : option (list Q))
  : result (list Q) :=
  let S_p := map (fun d => 1 - d) d_p in
  match d_n with
  | Some d_n =>
      let S_n := map (fun d => 1 - d) d_n in
      cond <- Np.gt_arr S_p S_n ;;
      w <- Np.where_ cond (map (fun s => s + 1) S_p)
                          (map (fun s => -1 - s) S_n) ;;
      Ok (map (fun v => v / 2) w)
  | None => Ok (map (fun s => (s + 1) / 2) S_p)
  end.

Section Methods.

Context {row : Type} {sk : Sklearn row}.

Local Open Scope action_scope.

Definition fit (X : list row) (y : list Q) : action (t row) unit :=
  X <~ lift (check_array X) ;;
  let index := Np.arange (length X) in
  '(index_p, index_n) <~ lift (_unzip_relevant index y) ;;
  modify (set_index index_p index_n) ;;;
  (if (0 <? length index_p)%nat
   then X_p <~ lift (Np.take X index_p) ;; modify (set_mod_p (nn_fit X_p))
   else raise (ValueError
                 "Training sets with no positive labels are not supported!")) ;;;
  (if (0 <? length index_n)%nat
   then X_n <~ lift (Np.take X index_n) ;; modify (set_mod_n (nn_fit X_n))
   else ret tt).

Local Close Scope action_scope.

Definition kneighbors (self : t row) (X : list row) (batch_size : Z)
  : result (list Q * list Z * metadata) :=
  X <- check_array X ;;
  '(D_p, idx_p_loc) <-
    _chunk_kneighbors (nn_kneighbors (_mod_p self)) X batch_size ;;
  D_p0 <- Np.col0 D_p ;;
  let D_p := map (fun d => d / 2) D_p0 in
  index_p <- attr (_index_p self) ;;
  loc_p <- Np.col0 idx_p_loc ;;
  ind_p <- Np.take index_p loc_p ;;
  '(D_n, ind, md) <-
    match _fit_method (_mod_n self) with
    | Some _ =>
        '(D_n, idx_n_loc) <-
          _chunk_kneighbors (nn_kneighbors (_mod_n self)) X batch_size ;;
        D_n0 <- Np.col0 D_n ;;
        let D_n := map (fun d => d / 2) D_n0 in
        index_n <- attr (_index_n self) ;;
        loc_n <- Np.col0 idx_n_loc ;;
        ind_n <- Np.take index_n loc_n ;;
        let md := {| dist_p := D_p; ind_p := ind_p;
                     ind_n := Some ind_n; dist_n := Some D_n |} in
        ind <- (if String.eqb (ranking_ self) "supervised"
                then cond <- Np.le_arr D_p D_n ;; Np.where_ cond ind_p ind_n
                else Ok ind_p) ;;
        Ok (Some D_n, ind, md)
    | None =>
        Ok (None, ind_p,
            {| dist_p := D_p; ind_p := ind_p;
               ind_n := None; dist_n := None |})
    end ;;
  score <- (if String.eqb (ranking_ self) "supervised"
            then _ranking_score D_p D_n
            else if String.eqb (ranking_ self) "unsupervised"
            then _ranking_score D_p None
            else Raise (ValueError "")) ;;
  Ok (score, ind, md).

End Methods.

End NearestNeighborRanker.

(** ** The query run in one call

    A reference for the chunked query, following the specification's words:
    the concatenated result is to be "exactly as if run in one call".
    [kneighbors_one_call] is [kneighbors] with each index asked once for
    the whole query matrix instead of batch by batch. *)

Module Reference.

Import NearestNeighborRanker.

Local Open Scope Q_scope.

Definition kneighbors_one_call {row : Type} {sk : Sklearn row}
  (self : t row) (X : list row)
  : result (list Q * list Z * metadata) :=
  X <- check_array X ;;
  '(D_p, idx_p_loc) <- nn_kneighbors (_mod_p self) X ;;
  D_p0 <- Np.col0 D_p ;;
  let D_p := map (fun d => d / 2) D_p0 in
  index_p <- attr (_index_p self) ;;
  loc_p <- Np.col0 idx_p_loc ;;
  ind_p <- Np.take index_p loc_p ;;
  '(D_n, ind, md) <-
    match _fit_method (_mod_n self) with
    | Some _ =>
        '(D_n, idx_n_loc) <- nn_kneighbors (_mod_n self) X ;;
        D_n0 <- Np.col0 D_n ;;
        let D_n := map (fun d => d / 2) D_n0 in
        index_n <- attr (_index_n self) ;;
        loc_n <- Np.col0 idx_n_loc ;;
        ind_n <- Np.take index_n loc_n ;;
        let md := {| dist_p := D_p; ind_p := ind_p;
                     ind_n := Some ind_n; dist_n := Some D_n |} in
        ind <- (if String.eqb (ranking_ self) "supervised"
                then cond <- Np.le_arr D_p D_n ;; Np.where_ cond ind_p ind_n
                else Ok ind_p) ;;
        Ok (Some D_n, ind, md)
    | None =>
        Ok (None, ind_p,
            {| dist_p := D_p; ind_p := ind_p;
               ind_n := None; dist_n := None |})
    end ;;
  score <- (if String.eqb (ranking_ self) "supervised"
            then _ranking_score D_p D_n
            else if String.eqb (ranking_ self) "unsupervised"
            then _ranking_score D_p None
            else Raise (ValueError "")) ;;
  Ok (score, ind, md).

(** The fusion rule for one row, from the halved distances [(D_p, D_n)]:
    with [S_p = 1 - D_p] and [S_n = 1 - D_n], the score is [(S_p + 1) / 2]
    if [S_p > S_n] and [(-1 - S_n) / 2] otherwise. *)
Definition fuse (dd : Q * Q) : Q :=
  if Np.gt (1 - fst dd) (1 - snd dd)
  then (1 - fst dd + 1) / 2
  else (-1 - (1 - snd dd)) / 2.

(** The score of the positive branch alone. *)
Definition positive_score (D_p : Q) : Q := (1 - D_p + 1) / 2.

(** The winning index for one row, from [((D_p, D_n), (ind_p, ind_n))]:
    [ind_p] when [D_p <= D_n], else [ind_n]. *)
Definition pick (t : Q * Q * (Z * Z)) : Z :=
  if Np.le (fst (fst t)) (snd (fst t)) then fst (snd t) else snd (snd t).

(** The part of the result that comes from one index: its halved distances
    and the global ids of its nearest rows. *)
Definition answered {row : Type} {sk : Sklearn row}
  (m : NearestNeighbors row) (index : option (list Z))
  (X : list row) (D : list Q) (ind : list Z) : Prop :=
  exists r idx,
    _fit_method m <> None /\
    mapM (nn_query1 (_fit_X m)) X = Ok r /\
    index = Some idx /\
    D = map (fun p => fst p / 2) r /\
    Np.take idx (map snd r) = Ok ind.

(** The answer for a single query row, in the specification's words for
    step 3 of the query ("operating per row"): the nearest positive
    exemplar, the nearest negative exemplar when the negative index exists,
    and the fusion of the two. *)
Definition kneighbors_row {row : Type} {sk : Sklearn row}
  (self : t row) (x : row) : result (Q * Z) :=
  '(d_p, loc_p) <- nn_query1 (_fit_X (_mod_p self)) x ;;
  index_p <- attr (_index_p self) ;;
  ind_p <- Np.getitem index_p loc_p ;;
  match _fit_method (_mod_n self) with
  | Some _ =>
      '(d_n, loc_n) <- nn_query1 (_fit_X (_mod_n self)) x ;;
      index_n <- attr (_index_n self) ;;
      ind_n <- Np.getitem index_n loc_n ;;
      if String.eqb (ranking_ self) "supervised"
      then Ok (fuse (d_p / 2, d_n / 2),
               pick ((d_p / 2, d_n / 2), (ind_p, ind_n)))
      else Ok (positive_score (d_p / 2), ind_p)
  | None => Ok (positive_score (d_p / 2), ind_p)
  end.

(** The same object configured with another ranking mode. *)
Definition with_ranking {row : Type} (ranking : string) (self : t row)
  : t row :=
  {| _mod_p := _mod_p self; _mod_n := _mod_n self; ranking_ := ranking;
     _index_p := _index_p self; _index_n := _index_n self |}.

End Reference.

(** ** _CategorizerWrapper *)

Module _CategorizerWrapper.

(** The estimators that [_build_estimator] can construct. *)
Inductive estimator : Type :=
| LinearSVC
| linearsvc_cv_model (cv_obj : option Z) (cv_scoring : string)
| LogisticRegression
| logregr_cv_model (cv_obj : option Z) (cv_scoring : string)
| NearestCentroidRanker_
| NearestNeighborRanker_
| xgboost_model (cv_obj : option Z) (cv_scoring : string)
| xgboost_cv_model (cv : string) (cv_obj : option Z) (cv_scoring : string)
| MLPClassifier
| _EnsembleStacking (logregr svm xgboost : estimator).

(** Which optional packages can be imported. *)
Record packages : Type := {
  freediscovery_extra : bool;
  xgboost : bool;
  freediscovery_private : bool
}.

(** What [train] does to the world outside the object. *)
Inductive event : Type :=
| SetupModel (model_dir : string)
| Fit (cmod : estimator) (eval_metric : option string)
| Dump (dir name : string).

(** The dictionary [pars]; its entry ['options'] is [cmod.get_params()],
    which belongs to scikit-learn. *)
Record parameters : Type := {
  method : string;
  index : list Z;
  y : list Q
}.

(** The wrapper object; [data] is [self.pipeline.data]. *)
Record t (row : Type) : Type := {
  cv_scoring : string;
  cv_n_folds : Z;
  model_dir : string;
  data : list row;
  mid : option string;
  cmod : option estimator;
  _pars : option parameters
}.

Arguments cv_scoring {row} _.
Arguments cv_n_folds {row} _.
Arguments model_dir {row} _.
Arguments data {row} _.
Arguments mid {row} _.
Arguments cmod {row} _.
Arguments _pars {row} _.

(** The collaborators of [train]: [setup_model] picks the model id and its
    directory, [estimator_fit] is the [fit] method of the chosen estimator.
    Of the calls that [train] makes after its checks only that [fit] can
    raise here: a failure of [setup_model], of a [joblib.dump] or of
    [get_params] (which would leave a model file behind) is outside the
    model, and nothing below describes a [train] that fails after its
    fit. *)
Class Backend (row : Type) : Type := {
  installed : packages;
  setup_model : string -> string * string;
  estimator_fit : estimator -> list row -> list Q -> option string -> result unit
}.

(** [if cv:] on a value that is [None] or a string. *)
Definition truthy (cv : option string) : bool :=
  match cv with
  | None => false
  | Some c => negb (String.eqb c "")
  end.

Definition is_None {A : Type} (a : option A) : bool :=
  match a with
  | None => true
  | Some _ => false
  end.

Definition need (present : bool) (pkg : string) : result unit :=
  if present then Ok tt else Raise (OptionalDependencyMissing pkg).

(** [_build_estimator]; an import of an optional package succeeds when the
    package is installed.  The call [_rename_main_thread()] and the
    arguments [Y_train] and [**options] do not influence the choice. *)
Definition _build_estimator (pk : packages) (method : string)
  (cv : option string) (cv_scoring : string) (cv_n_folds : Z)
  : result estimator :=
  let cv_obj := if truthy cv then Some cv_n_folds else None in
  if String.eqb method "LinearSVC" then
    if is_None cv then Ok LinearSVC
    else _ <- need (freediscovery_extra pk) "freediscovery_extra" ;;
         Ok (linearsvc_cv_model cv_obj cv_scoring)
  else if String.eqb method "LogisticRegression" then
    if is_None cv then Ok LogisticRegression
    else _ <- need (freediscovery_extra pk) "freediscovery_extra" ;;
         Ok (logregr_cv_model cv_obj cv_scoring)
  else if String.eqb method "NearestCentroid" then Ok NearestCentroidRanker_
  else if String.eqb method "NearestNeighbor" then Ok NearestNeighborRanker_
  else if String.eqb method "xgboost" then
    _ <- need (xgboost pk) "xgboost" ;;
    match cv with
    | None =>
        _ <- need (freediscovery_extra pk) "freediscovery_extra" ;;
        Ok (xgboost_model cv_obj cv_scoring)
    | Some c =>
        _ <- need (freediscovery_extra pk) "freediscovery_extra" ;;
        Ok (xgboost_cv_model c cv_obj cv_scoring)
    end
  else if String.eqb method "MLPClassifier" then
    if negb (is_None cv)
    then Raise (NotImplementedFD "CV not supported with MLPClassifier")
    else Ok MLPClassifier
  else Raise (WrongParameter "Method {} not implemented!").

Section Methods.

Context {row : Type} {be : Backend row}.

Local Open Scope action_scope.

(** The state is the object together with the trace of outside effects. *)
Definition world : Type := t row * list event.

Definition emit (e : event) : action world unit :=
  modify (fun w : world => (fst w, snd w ++ [e])).

Definition assign (f : t row -> t row) : action world unit :=
  modify (fun w : world => (f (fst w), snd w)).

Definition set_pars (p : parameters) (self : t row) : t row :=
  {| cv_scoring := cv_scoring self; cv_n_folds := cv_n_folds self;
     model_dir := model_dir self; data := data self; mid := mid self;
     cmod := cmod self; _pars := Some p |}.

Definition set_mid (m : string) (self : t row) : t row :=
  {| cv_scoring := cv_scoring self; cv_n_folds := cv_n_folds self;
     model_dir := model_dir self; data := data self; mid := Some m;
     cmod := cmod self; _pars := _pars self |}.

Definition set_cmod (c : estimator) (self : t row) : t row :=
  {| cv_scoring := cv_scoring self; cv_n_folds := cv_n_folds self;
     model_dir := model_dir self; data := data self; mid := mid self;
     cmod := Some c; _pars := _pars self |}.

Definition when (b : bool) (e : exn) : action world unit :=
  if b then raise e else ret tt.

Definition train (index : list Z) (y : list Q) (method : string)
  (cv : option string) : action world (estimator * list Q) :=
  let valid_methods := ["LinearSVC"; "LogisticRegression"; "xgboost";
                        "NearestCentroid"; "NearestNeighbor"]%string in
  when (Py.str_in method ["ensemble-stacking"; "MLPClassifier"]%string)
       (WrongParameter
          "method={} is implemented but not production ready. It was disabled for now.") ;;;
  when (negb (Py.str_in method valid_methods))
       (WrongParameter "method={} is not supported, should be one of {}") ;;;
  when (negb (is_None cv)
        && Py.str_in method ["NearestNeighbor"; "NearestCentroid"]%string)
       (WrongParameter "Cross validation (cv={}) not supported with {}") ;;;
  when (negb (match cv with
              | None => true
              | Some c => Py.str_in c ["fast"; "full"]%string
              end))
       (WrongParameter "cv") ;;;
  when (String.eqb method "ensemble-stacking" && negb (is_None cv))
       (WrongParameter "CV with ensemble stacking is not supported!") ;;;
  w <~ get ;;
  let self := fst w in
  X_train <~ lift (Np.take (data self) index) ;;
  let Y_train := y in
  cmod <~
    (if negb (String.eqb method "ensemble-stacking")
     then lift (_build_estimator installed method cv
                                 (cv_scoring self) (cv_n_folds self))
     else
       lift (if freediscovery_private installed then Ok tt
             else Raise (ImportError "freediscovery.private")) ;;;
       cmod_logregr <~ lift (_build_estimator installed "LogisticRegression"
                               (Some "full"%string)
                               (cv_scoring self) (cv_n_folds self)) ;;
       cmod_svm <~ lift (_build_estimator installed "LinearSVC"
                           (Some "full"%string)
                           (cv_scoring self) (cv_n_folds self)) ;;
       cmod_xgboost <~ lift (_build_estimator installed "xgboost" None
                               (cv_scoring self) (cv_n_folds self)) ;;
       ret (_EnsembleStacking cmod_logregr cmod_svm cmod_xgboost)) ;;
  emit (SetupModel (model_dir self)) ;;;
  let '(mid, mid_dir) := setup_model (model_dir self) in
  let eval_metric :=
    if String.eqb method "xgboost" && negb (truthy cv)
    then Some "auc"%string else None in
  emit (Fit cmod eval_metric) ;;;
  lift (estimator_fit cmod X_train Y_train eval_metric) ;;;
  emit (Dump mid_dir "model") ;;;
  let pars := {| method := method; index := index; y := y |} in
  assign (set_pars pars) ;;;
  emit (Dump mid_dir "pars") ;;;
  assign (set_mid mid) ;;;
  assign (set_cmod cmod) ;;;
  ret (cmod, Y_train).

End Methods.

End _CategorizerWrapper.

(** ** A concrete collaborator: matrices with a single feature

    With one feature the Euclidean distance between two rows is the
    absolute value of their difference, which is exact on rationals.  The
    instance is used to run the ranker on concrete inputs. *)

Module OneFeature.

Local Open Scope Q_scope.

(** The nearest row of [F] to [x], scanning from position [i]; [best] and
    [at_] are the smallest distance so far and its position. *)
Fixpoint scan (x : Q) (F : list Q) (i : Z) (best : Q) (at_ : Z) : Q * Z :=
  match F with
  | [] => (best, at_)
  | f :: F' =>
      let d := Qabs (x - f) in
      if Qle_bool best d then scan x F' (i + 1)%Z best at_
      else scan x F' (i + 1)%Z d i
  end.

Definition query1 (F : list Q) (x : Q) : result (Q * Z) :=
  match F with
  | [] => Raise (ValueError "Expected n_neighbors <= n_samples")
  | f :: F' => Ok (scan x F' 1%Z (Qabs (x - f)) 0%Z)
  end.

Definition min_samples (X : list Q) : result (list Q) :=
  match X with
  | [] => Raise (ValueError "Found array with 0 sample(s)")
  | _ => Ok X
  end.

#[export] Instance sklearn : Sklearn Q := {
  check_array := min_samples;
  nn_query1 := query1;
  distance := fun _ x c => Ok (Qabs (x - c))
}.

#[export] Instance backend : _CategorizerWrapper.Backend Q := {
  _CategorizerWrapper.installed :=
    {| _CategorizerWrapper.freediscovery_extra := false;
       _CategorizerWrapper.xgboost := false;
       _CategorizerWrapper.freediscovery_private := false |};
  _CategorizerWrapper.setup_model := fun dir => ("m0", dir)%string;
  _CategorizerWrapper.estimator_fit := fun _ _ _ _ => Ok tt
}.

(** A fresh ranker, fitted once. *)
Definition fitted (ranking : string) (X : list Q) (y : list Q)
  : result (NearestNeighborRanker.t Q) :=
  self <- NearestNeighborRanker.__init__ Q ranking ;;
  match NearestNeighborRanker.fit X y self with
  | (Ok _, self') => Ok self'
  | (Raise e, _) => Raise e
  end.

Definition query (ranking : string) (X_fit y X : list Q) (batch_size : Z)
  : result (list Q * list Z * NearestNeighborRanker.metadata) :=
  self <- fitted ranking X_fit y ;;
  NearestNeighborRanker.kneighbors self X batch_size.

(** Exemplars at 1 and 1/2 (positive) and at -1 (negative), and a query
    matrix of five rows; the last row is as far from the nearest positive
    exemplar as from the negative one. *)
Definition X_train : list Q := [1; -1; 1 # 2].
Definition y_train : list Q := [1; 0; 1].
Definition X_query : list Q := [1; 0; -1; 9 # 10; -1 # 4].

(** The ranker that [fit] leaves on that training set. *)
Definition ranker : NearestNeighborRanker.t Q :=
  {| NearestNeighborRanker._mod_p := nn_fit [1; 1 # 2];
     NearestNeighborRanker._mod_n := nn_fit [-1];
     NearestNeighborRanker.ranking_ := "supervised";
     NearestNeighborRanker._index_p := Some [0; 2]%Z;
     NearestNeighborRanker._index_n := Some [1]%Z |}.

(** What that ranker answers on [X_query]. *)
Definition scores : list Q := [4 # 4; 7 # 8; -4 # 4; 39 # 40; -13 # 16].
Definition winners : list Z := [0; 2; 1; 0; 2]%Z.
Definition diagnostics : NearestNeighborRanker.metadata :=
  {| NearestNeighborRanker.dist_p := [0 # 2; 1 # 4; 3 # 4; 1 # 20; 6 # 16];
     NearestNeighborRanker.ind_p := [0; 2; 2; 0; 2]%Z;
     NearestNeighborRanker.ind_n := Some [1; 1; 1; 1; 1]%Z;
     NearestNeighborRanker.dist_n := Some [2 # 2; 1 # 2; 0 # 2; 19 # 20; 3 # 8] |}.

(** The object that [__init__] returns. *)
Definition fresh (ranking : string) : NearestNeighborRanker.t Q :=
  {| NearestNeighborRanker._mod_p := nn_new Q;
     NearestNeighborRanker._mod_n := nn_new Q;
     NearestNeighborRanker.ranking_ := ranking;
     NearestNeighborRanker._index_p := None;
     NearestNeighborRanker._index_n := None |}.

(** The ranker that [fit] leaves on the two positive exemplars alone. *)
Definition positives_only : NearestNeighborRanker.t Q :=
  {| NearestNeighborRanker._mod_p := nn_fit [1; 1 # 2];
     NearestNeighborRanker._mod_n := nn_new Q;
     NearestNeighborRanker.ranking_ := "supervised";
     NearestNeighborRanker._index_p := Some [0; 1]%Z;
     NearestNeighborRanker._index_n := Some [] |}.

(** A wrapper that has not trained anything, and an untouched world. *)
Definition wrapper : _CategorizerWrapper.t Q :=
  {| _CategorizerWrapper.cv_scoring := "roc_auc";
     _CategorizerWrapper.cv_n_folds := 3;
     _CategorizerWrapper.model_dir := "/tmp/";
     _CategorizerWrapper.data := X_train;
     _CategorizerWrapper.mid := None;
     _CategorizerWrapper.cmod := None;
     _CategorizerWrapper._pars := None |}.

End OneFeature.

(** ** The batches of a chunked run

    A reference for the loop of [_chunk_kneighbors]: the consecutive blocks
    of [b] rows of [X], the last one possibly shorter. *)

Module Chunking.

(** [ceil(n / b)] on natural numbers. *)
Definition ceil_div (n b : nat) : nat := (n + b - 1) / b.

Definition block {A : Type} (X : list A) (b k : nat) : list A :=
  firstn b (skipn (k * b) X).

Definition blocks {A : Type} (X : list A) (b : nat) : list (list A) :=
  map (block X b) (seq 0 (ceil_div (length X) b)).

End Chunking.

(** ** The checks at the head of [train]

    [rejected method cv] collects the conditions of the four [raise]
    statements that precede the first use of the data, in their order. *)

Module TrainChecks.

Import _CategorizerWrapper.

Definition rejected (method : string) (cv : option string) : bool :=
  Py.str_in method ["ensemble-stacking"; "MLPClassifier"]%string
  || negb (Py.str_in method ["LinearSVC"; "LogisticRegression"; "xgboost";
                             "NearestCentroid"; "NearestNeighbor"]%string)
  || (negb (is_None cv)
      && Py.str_in method ["NearestNeighbor"; "NearestCentroid"]%string)
  || negb (match cv with
           | None => true
           | Some c => Py.str_in c ["fast"; "full"]%string
           end).

(** The keyword [eval_metric] that [train] passes to [fit]. *)
Definition eval_metric (method : string) (cv : option string)
  : option string :=
  if String.eqb method "xgboost" && negb (truthy cv)
  then Some "auc"%string else None.

End TrainChecks.

(** ** explain_binary_categorization *)

(** A Python [dict] as the list of its items in insertion order, with
    distinct keys; [eqb] decides equality of keys. *)
Module Dict.

Section WithKeys.

Context {K V : Type} (eqb : K -> K -> bool).

(** [d.get(k)]. *)
Fixpoint get (k : K) (d : list (K * V)) : option V :=
  match d with
  | [] => None
  | (k', v) :: d' => if eqb k k' then Some v else get k d'
  end.

(** [d[k] = v]: an existing key keeps its place and takes the new value, a
    new key goes to the end. *)
Fixpoint set (k : K) (v : V) (d : list (K * V)) : list (K * V) :=
  match d with
  | [] => [(k, v)]
  | (k', v') :: d' =>
      if eqb k k' then (k', v) :: d' else (k', v') :: set k v d'
  end.

End WithKeys.

End Dict.

Module Explain.

Local Open Scope Q_scope.

(** The exceptions of [explain_binary_categorization]: those of the rest of
    the module, [NotImplementedError], and the [KeyError] of a failed
    dictionary lookup. *)
Inductive failure : Type :=
| Builtin (e : exn)
| NotImplementedError
| KeyError (key : Z).

Inductive outcome (A : Type) : Type :=
| Done (a : A)
| Fail (f : failure).

Arguments Done {A} a.
Arguments Fail {A} f.

(** A scipy CSR matrix with a single stored row: its [shape], the column
    [indices] of the stored entries and their values [data]; [ndim] is the
    length of [shape]. *)
Record csr_matrix : Type := {
  shape : list Z;
  indices : list Z;
  data : list Q
}.

(** What the function reads of the estimator: the name of its type and the
    coefficient matrix [coef_], given by its rows. *)
Record estimator : Type := {
  type_name : string;
  coef_ : list (list Q)
}.

(** [a.shape[1]] of a two-dimensional array given by its rows. *)
Definition ncols (a : list (list Q)) : Z :=
  match a with
  | [] => 0
  | r :: _ => Z.of_nat (length r)
  end.

(** [{ind: key for key, ind in vocabulary.items()}]. *)
Definition invert (vocabulary : list (string * Z)) : list (Z * string) :=
  fold_left (fun d item => Dict.set Z.eqb (snd item) (fst item) d)
            vocabulary [].

(** The loop over [zip(indices, weights)]. *)
Fixpoint fill (vocabulary_inv : list (Z * string)) (items : list (Z * Q))
  (weights_dict : list (string * Q)) : outcome (list (string * Q)) :=
  match items with
  | [] => Done weights_dict
  | (ind, value) :: items' =>
      match Dict.get Z.eqb ind vocabulary_inv with
      | None => Fail (KeyError ind)
      | Some key =>
          fill vocabulary_inv items'
               (Dict.set String.eqb key value weights_dict)
      end
  end.

(** [X_row.data * estimator.coef_[0, indices]]. *)
Definition weights_of (est : estimator) (X_row : csr_matrix)
  : result (list Q) :=
  row0 <- Np.getitem (coef_ est) 0%Z ;;
  c <- Np.take row0 (indices X_row) ;;
  p <- Np.broadcast2 (data X_row) c ;;
  Ok (map (fun dc => fst dc * snd dc) p).

Definition explain_binary_categorization (est : estimator)
  (vocabulary : list (string * Z)) (X_row : csr_matrix)
  : outcome (list (string * Q)) :=
  match shape X_row with
  | [n_rows; n_cols] =>
      if negb (n_rows =? 1)%Z
      then Fail (Builtin (ValueError
             "X_row must be an 2D sparse array,with shape (1, N) not {}"))
      else if negb (n_cols =? Z.of_nat (length vocabulary))%Z
      then Fail (Builtin (ValueError
             "The vocabulary length ({}) does not match the number of features in X_row ({})"))
      else
        let vocabulary_inv := invert vocabulary in
        if String.eqb (type_name est) "LogisticRegression"
        then
          if negb (n_cols =? ncols (coef_ est))%Z
          then Fail (Builtin (ValueError
                 "Coefficients size {} does not match n_features={}"))
          else
            match weights_of est X_row with
            | Raise e => Fail (Builtin e)
            | Ok weights =>
                fill vocabulary_inv (combine (indices X_row) weights) []
            end
        else Fail NotImplementedError
  | _ => Fail (Builtin (ValueError
           "X_row must be an 2D sparse array,with shape (1, N) not {}"))
  end.

End Explain.

(** ** The states of a ranker

    The objects that a program can hold: what [__init__] returns, and what
    any call of [fit] leaves behind, whether it returns or raises. *)

Module Lifecycle.

Import NearestNeighborRanker.

Inductive reachable {row : Type} {sk : Sklearn row} : t row -> Prop :=
| after_init (ranking : string) (self : t row) :
    __init__ row ranking = Ok self -> reachable self
| after_fit (self : t row) (X : list row) (y : list Q) :
    reachable self -> reachable (snd (fit X y self)).

End Lifecycle.

(** * Properties *)

(** ** The error monad *)

Lemma bind_Ok_inv {A B : Type} (m : result A) (k : A -> result B) (b : B) :
  bind m k = Ok b -> exists a, m = Ok a /\ k a = Ok b.
Proof.
  destruct m as [a|e]; simpl; intros H; [eauto | discriminate].
Qed.

(** Splits a hypothesis [bind m k = Ok b] into its two steps. *)
Tactic Notation "bind_inv" hyp(H) :=
  let a := fresh "v" in
  let Ha := fresh "Hv" in
  apply bind_Ok_inv in H; destruct H as (a & Ha & H).

Tactic Notation "bind_inv" hyp(H) "as" ident(a) ident(Ha) :=
  apply bind_Ok_inv in H; destruct H as (a & Ha & H).

Lemma mapM_app {A B : Type} (f : A -> result B) (l1 l2 : list A) :
  mapM f (l1 ++ l2) =
  (r1 <- mapM f l1 ;; r2 <- mapM f l2 ;; Ok (r1 ++ r2)).
Proof.
  induction l1 as [|x l1 IH]; simpl.
  - destruct (mapM f l2); reflexivity.
  - destruct (f x) as [y|e]; simpl; [|reflexivity].
    rewrite IH. destruct (mapM f l1) as [r1|e]; simpl; [|reflexivity].
    destruct (mapM f l2); reflexivity.
Qed.

Lemma mapM_length {A B : Type} (f : A -> result B) (l : list A) (r : list B) :
  mapM f l = Ok r -> length r = length l.
Proof.
  revert r. induction l as [|x l IH]; simpl; intros r H.
  - injection H as <-. reflexivity.
  - bind_inv H. bind_inv H. injection H as <-. simpl. f_equal. eauto.
Qed.

Lemma mapM_nth_error {A B : Type} (f : A -> result B) (l : list A)
  (r : list B) (i : nat) (x : A) :
  mapM f l = Ok r -> nth_error l i = Some x ->
  exists y, f x = Ok y /\ nth_error r i = Some y.
Proof.
  revert r i. induction l as [|a l IH]; simpl; intros r i H Hi.
  - destruct i; discriminate.
  - bind_inv H. bind_inv H. injection H as <-.
    destruct i as [|i]; simpl in *.
    + injection Hi as ->. eauto.
    + eauto.
Qed.

Lemma mapM_Ok_map {A B : Type} (f : A -> B) (l : list A) :
  mapM (fun x => Ok (f x)) l = Ok (map f l).
Proof.
  induction l as [|x l IH]; simpl; [reflexivity|]. rewrite IH. reflexivity.
Qed.

(** ** Comparisons on rationals *)

Lemma gt_true_iff (a b : Q) : Np.gt a b = true <-> (b < a)%Q.
Proof.
  unfold Np.gt. rewrite Qgt_alt.
  destruct (a ?= b)%Q; split; congruence.
Qed.

Lemma gt_false_iff (a b : Q) : Np.gt a b = false <-> ~ (b < a)%Q.
Proof.
  rewrite <- gt_true_iff. destruct (Np.gt a b); split; congruence.
Qed.

Lemma le_true_iff (a b : Q) : Np.le a b = true <-> (a <= b)%Q.
Proof. apply Qle_bool_iff. Qed.

Lemma le_false_iff (a b : Q) : Np.le a b = false <-> ~ (a <= b)%Q.
Proof.
  rewrite <- le_true_iff. destruct (Np.le a b); split; congruence.
Qed.

(** Linear arithmetic on rationals with halving. *)
Ltac lra_half := unfold Qdiv in *; change (/ 2)%Q with (1 # 2)%Q in *; lra.

(** ** Boolean masks *)

Lemma mask_select_total {A : Type} (a : list A) (m : list bool) :
  length a = length m -> exists r, Np.mask_select a m = Ok r.
Proof.
  revert m. induction a as [|x a IH]; intros [|b m] Hlen;
    simpl in *; try discriminate.
  - eauto.
  - injection Hlen as Hlen. destruct (IH m Hlen) as (r & ->). simpl. eauto.
Qed.

Lemma mask_select_In {A : Type} (a : list A) (m : list bool) (r : list A) :
  Np.mask_select a m = Ok r ->
  forall x, In x r <->
            exists k, nth_error a k = Some x /\ nth_error m k = Some true.
Proof.
  revert m r. induction a as [|y a IH]; intros [|b m] r H x;
    simpl in H; try discriminate.
  - injection H as <-. split; [intros []|].
    intros ([|k] & Hk & _); discriminate.
  - bind_inv H. injection H as <-. specialize (IH m v Hv x).
    split.
    + intros Hin. destruct b.
      * destruct Hin as [->|Hin]; [exists 0%nat; auto|].
        apply IH in Hin. destruct Hin as (k & ? & ?). exists (S k); auto.
      * apply IH in Hin. destruct Hin as (k & ? & ?). exists (S k); auto.
    + intros ([|k] & Hk1 & Hk2); simpl in *.
      * injection Hk1 as ->. injection Hk2 as ->. left; reflexivity.
      * assert (In x v) by (apply IH; eauto). destruct b; simpl; auto.
Qed.

Lemma mask_select_incl {A : Type} (a : list A) (m : list bool) (r : list A) :
  Np.mask_select a m = Ok r -> incl r a.
Proof.
  intros H x Hx. apply (mask_select_In _ _ _ H) in Hx.
  destruct Hx as (k & Hk & _). eapply nth_error_In; eauto.
Qed.

Lemma mask_select_sorted {A : Type} (R : A -> A -> Prop) (a : list A)
  (m : list bool) (r : list A) :
  StronglySorted R a -> Np.mask_select a m = Ok r -> StronglySorted R r.
Proof.
  intros Hs. revert m r. induction Hs as [|y a Hs IH Hall]; intros [|b m] r H;
    simpl in H; try discriminate.
  - injection H as <-. constructor.
  - bind_inv H. injection H as <-. destruct b; [|eauto].
    constructor; [eauto|].
    rewrite Forall_forall in *. intros x Hx. apply Hall.
    eapply mask_select_incl; eauto.
Qed.

Lemma mask_select_partition {A : Type} (a : list A) (m : list bool)
  (p n : list A) :
  Np.mask_select a m = Ok p -> Np.mask_select a (map negb m) = Ok n ->
  Permutation (p ++ n) a.
Proof.
  revert m p n. induction a as [|x a IH]; intros [|b m] p n Hp Hn;
    simpl in *; try discriminate.
  - injection Hp as <-. injection Hn as <-. constructor.
  - bind_inv Hp. injection Hp as <-. bind_inv Hn. injection Hn as <-.
    specialize (IH m _ _ Hv Hv0). destruct b; simpl.
    + constructor. exact IH.
    + apply Permutation_sym, Permutation_cons_app.
      apply Permutation_sym. exact IH.
Qed.

Lemma mask_select_app {A : Type} (a1 a2 : list A) (m1 m2 : list bool)
  (r1 r2 : list A) :
  Np.mask_select a1 m1 = Ok r1 -> Np.mask_select a2 m2 = Ok r2 ->
  Np.mask_select (a1 ++ a2) (m1 ++ m2) = Ok (r1 ++ r2).
Proof.
  revert m1 r1. induction a1 as [|x a1 IH]; intros [|b m1] r1 H1 H2;
    simpl in *; try discriminate.
  - injection H1 as <-. exact H2.
  - bind_inv H1. injection H1 as <-. rewrite (IH _ _ Hv H2). simpl.
    destruct b; reflexivity.
Qed.

Lemma mask_select_all {A : Type} (a : list A) :
  Np.mask_select a (repeat true (length a)) = Ok a.
Proof.
  induction a as [|x a IH]; simpl; [reflexivity|]. rewrite IH. reflexivity.
Qed.

Lemma mask_select_none {A : Type} (a : list A) :
  Np.mask_select a (repeat false (length a)) = Ok [].
Proof.
  induction a as [|x a IH]; simpl; [reflexivity|]. rewrite IH. reflexivity.
Qed.

Lemma map_repeat {A B : Type} (f : A -> B) (x : A) (n : nat) :
  map f (repeat x n) = repeat (f x) n.
Proof. induction n; simpl; congruence. Qed.

Lemma unzip_ones_zeros (rel nonrel : list Z) :
  _unzip_relevant (rel ++ nonrel)
    (repeat (inject_Z 1) (length rel) ++ repeat (inject_Z 0) (length nonrel))
  = Ok (rel, nonrel).
Proof.
  unfold _unzip_relevant; simpl.
  rewrite !map_app, !map_repeat.
  change (Np.gt (inject_Z 1) (1 # 2)) with true.
  change (Np.gt (inject_Z 0) (1 # 2)) with false. simpl negb.
  rewrite (mask_select_app _ _ _ _ _ _
             (mask_select_all rel) (mask_select_none nonrel)).
  rewrite (mask_select_app _ _ _ _ _ _
             (mask_select_none rel) (mask_select_all nonrel)).
  simpl. rewrite app_nil_r. reflexivity.
Qed.

(** ** Arrays of document ids *)

Lemma int64_true_iff (z : Z) : Np.int64 z = true <-> - 2 ^ 63 <= z < 2 ^ 63.
Proof.
  unfold Np.int64. rewrite andb_true_iff, Z.leb_le, Z.ltb_lt. reflexivity.
Qed.

Lemma forallb_int64 (ids : list Z) :
  Forall (fun id => - 2 ^ 63 <= id < 2 ^ 63) ids ->
  forallb Np.int64 ids = true.
Proof.
  intros H. apply forallb_forall. rewrite Forall_forall in H.
  intros z Hz. apply int64_true_iff, H, Hz.
Qed.

Lemma asarray_int64 (ids : list Z) :
  ids <> [] -> Forall (fun id => - 2 ^ 63 <= id < 2 ^ 63) ids ->
  Np.asarray ids = Some (Np.Int64 ids).
Proof.
  intros Hne H. apply forallb_int64 in H. unfold Np.asarray. rewrite H.
  destruct ids; [congruence|reflexivity].
Qed.

Lemma trunc_inject_Z (z : Z) : Np.trunc (inject_Z z) = z.
Proof. unfold Np.trunc. simpl. apply Z.quot_1_r. Qed.

(** An integer of magnitude at most [2 ^ 53] is a float64 value. *)
Lemma float64_of_int_small (z : Z) :
  Z.abs z <= 2 ^ 53 -> Np.float64_of_int z = z.
Proof.
  intros H. destruct (Z.eq_dec (Z.abs z) (2 ^ 53)) as [He|Hne].
  - destruct (Z.abs_eq_or_opp z) as [Hz|Hz]; rewrite Hz in He.
    + subst z. reflexivity.
    + assert (z = - 2 ^ 53) by lia. subst z. reflexivity.
  - unfold Np.float64_of_int.
    assert (Hlog : Z.log2 (Z.abs z) - 52 <= 0).
    { destruct (Z.eq_dec (Z.abs z) 0) as [->|Hz]; [simpl; lia|].
      assert (Z.log2 (Z.abs z) < 53); [|lia].
      apply Z.log2_lt_pow2; lia. }
    apply Z.leb_le in Hlog. rewrite Hlog. reflexivity.
Qed.

(** Ids that are float64 values survive the conversion to [float64] and
    back. *)
Lemma trunc_float64_of_int (ids : list Z) :
  Forall (fun id => Np.float64_of_int id = id) ids ->
  map Np.trunc (map (fun z => inject_Z (Np.float64_of_int z)) ids) = ids.
Proof.
  induction 1 as [|z ids Hz _ IH]; simpl; [reflexivity|].
  rewrite trunc_inject_Z, Hz, IH. reflexivity.
Qed.

Lemma unzip_float64_ids (ids : list Z) (y : list Q) :
  Forall (fun id => - 2 ^ 63 <= id < 2 ^ 63) ids ->
  Forall (fun id => Np.float64_of_int id = id) ids ->
  _unzip_relevant_array
    (Np.Float64 (map (fun z => inject_Z (Np.float64_of_int z)) ids)) y
  = Some (_unzip_relevant ids y).
Proof.
  intros Hrange Hexact. unfold _unzip_relevant_array, Np.asarray_int.
  rewrite (trunc_float64_of_int ids Hexact), (forallb_int64 ids Hrange).
  reflexivity.
Qed.

(** C10, as amended: for id sequences whose ids fit a signed 64-bit integer
    and, when one of the two sequences is empty, are float64 values (as
    every integer of magnitude at most [2 ^ 53] is, see
    [float64_of_int_small]), [_unzip_relevant] applied to the output of
    [_zip_relevant] returns the two sequences unchanged and in their
    original order (whether or not they are disjoint). *)
Theorem unzip_zip_relevant (rel nonrel : list Z) :
  Forall (fun id => - 2 ^ 63 <= id < 2 ^ 63) (rel ++ nonrel) ->
  (rel = [] \/ nonrel = [] ->
   Forall (fun id => Np.float64_of_int id = id) (rel ++ nonrel)) ->
  unzip_zip rel nonrel = Some (Ok (rel, nonrel)).
Proof.
  intros Hrange Hexact.
  pose proof (unzip_ones_zeros rel nonrel) as Hsplit.
  destruct rel as [|r rel], nonrel as [|n nonrel].
  - reflexivity.
  - specialize (Hexact (or_introl eq_refl)). simpl app in *.
    unfold unzip_zip, _zip_relevant.
    rewrite (asarray_int64 (n :: nonrel)) by (congruence || assumption).
    cbn [Np.asarray Np.hstack app].
    rewrite unzip_float64_ids by assumption.
    cbn [length repeat app]. cbn [length repeat app] in Hsplit.
    rewrite Hsplit. reflexivity.
  - specialize (Hexact (or_intror eq_refl)). rewrite app_nil_r in *.
    unfold unzip_zip, _zip_relevant.
    rewrite (asarray_int64 (r :: rel)) by (congruence || assumption).
    cbn [Np.asarray Np.hstack]. rewrite app_nil_r.
    rewrite unzip_float64_ids by assumption.
    rewrite Hsplit. reflexivity.
  - apply Forall_app in Hrange. destruct Hrange as [Hr Hn].
    unfold unzip_zip, _zip_relevant.
    rewrite (asarray_int64 (r :: rel)) by (congruence || assumption).
    rewrite (asarray_int64 (n :: nonrel)) by (congruence || assumption).
    cbn [Np.hstack]. unfold _unzip_relevant_array. cbn [Np.asarray_int bind].
    rewrite Hsplit. reflexivity.
Qed.

(** C10, as stated, fails: next to an empty list the id [2 ^ 53 + 1] is
    converted to [float64], which has no such value, and comes back as
    [2 ^ 53]; and the id [2 ^ 64] does not fit the integer array that
    [_unzip_relevant] converts to, so that the call raises. *)
Lemma unzip_zip_relevant_counterexample :
  unzip_zip [9007199254740993] [] = Some (Ok ([9007199254740992], [])) /\
  unzip_zip [9007199254740993] [] <> Some (Ok ([9007199254740993], [])) /\
  unzip_zip [18446744073709551616] [1] = Some (Raise OverflowError).
Proof.
  split; [vm_compute; reflexivity|]. split; [|vm_compute; reflexivity].
  vm_compute. intros H. discriminate H.
Qed.

Lemma unzip_zip_relevant_witness :
  unzip_zip [7; 9007199254740992; -3] []
  = Some (Ok ([7; 9007199254740992; -3], [])) /\
  unzip_zip [9007199254740993; 5] [2]
  = Some (Ok ([9007199254740993; 5], [2])).
Proof.
  split.
  - apply (unzip_zip_relevant [7; 9007199254740992; -3] []).
    + simpl. repeat (apply Forall_cons; [lia|]). apply Forall_nil.
    + intros _. simpl.
      repeat (apply Forall_cons; [vm_compute; reflexivity|]).
      apply Forall_nil.
  - apply (unzip_zip_relevant [9007199254740993; 5] [2]).
    + simpl. repeat (apply Forall_cons; [lia|]). apply Forall_nil.
    + intros [H|H]; discriminate H.
Defined.

(** ** [np.arange] *)

Lemma arange_length (n : nat) : length (Np.arange n) = n.
Proof. unfold Np.arange. rewrite length_map, length_seq. reflexivity. Qed.

Lemma nth_error_arange (n k : nat) (x : Z) :
  nth_error (Np.arange n) k = Some x <-> (k < n)%nat /\ x = Z.of_nat k.
Proof.
  unfold Np.arange. rewrite nth_error_map. split.
  - intros H. destruct (nth_error (seq 0 n) k) as [j|] eqn:Hj; [|discriminate].
    injection H as <-.
    assert (Hlt : (k < n)%nat).
    { rewrite <- (length_seq n 0). apply nth_error_Some. congruence. }
    split; [exact Hlt|].
    rewrite (nth_error_nth' _ 0%nat) in Hj by (rewrite length_seq; exact Hlt).
    rewrite seq_nth in Hj by exact Hlt. injection Hj as <-. reflexivity.
  - intros [Hlt ->].
    rewrite (nth_error_nth' _ 0%nat) by (rewrite length_seq; exact Hlt).
    rewrite seq_nth by exact Hlt. reflexivity.
Qed.

Lemma seq_sorted (s n : nat) :
  StronglySorted Z.lt (map Z.of_nat (seq s n)).
Proof.
  revert s. induction n as [|n IH]; intros s; simpl; constructor.
  - apply IH.
  - rewrite Forall_forall. intros x Hx. apply in_map_iff in Hx.
    destruct Hx as (j & <- & Hj). apply in_seq in Hj. lia.
Qed.

Lemma arange_sorted (n : nat) : StronglySorted Z.lt (Np.arange n).
Proof. apply seq_sorted. Qed.

Lemma sorted_lt_NoDup (l : list Z) : StronglySorted Z.lt l -> NoDup l.
Proof.
  induction 1 as [|x l Hs IH Hall]; constructor; [|exact IH].
  intros Hin. rewrite Forall_forall in Hall. specialize (Hall x Hin). lia.
Qed.

(** ** [fit]: the partition of the row indices *)

(** The mask [y > 0.5] on a label that is 0 or 1. *)
Lemma binary_label_mask (v : Q) :
  (v == 0 \/ v == 1)%Q ->
  (Np.gt v (1 # 2) = true <-> (v == 1)%Q) /\
  (Np.gt v (1 # 2) = false <-> (v == 0)%Q).
Proof.
  intros Hv. rewrite gt_false_iff, gt_true_iff.
  destruct Hv as [Hv|Hv]; rewrite Hv; split; split; intros H;
    try reflexivity; try (exfalso; revert H; lra); try lra.
Qed.

Lemma unzip_relevant_arange_In (n : nat) (y : list Q) (pos neg : list Z) :
  Forall (fun v => v == 0 \/ v == 1)%Q y ->
  length y = n ->
  _unzip_relevant (Np.arange n) y = Ok (pos, neg) ->
  (forall i, In i pos <->
             exists v, 0 <= i /\ nth_error y (Z.to_nat i) = Some v /\ (v == 1)%Q)
  /\
  (forall i, In i neg <->
             exists v, 0 <= i /\ nth_error y (Z.to_nat i) = Some v /\ (v == 0)%Q).
Proof.
  intros Hbin Hlen H. unfold _unzip_relevant in H.
  bind_inv H. bind_inv H. injection H as <- <-.
  rewrite Forall_forall in Hbin.
  split; intros i.
  - rewrite (mask_select_In _ _ _ Hv). split.
    + intros (k & Hk & Hm). apply nth_error_arange in Hk. destruct Hk as [Hk ->].
      rewrite nth_error_map in Hm.
      destruct (nth_error y k) as [w|] eqn:Hw; [|discriminate].
      injection Hm as Hm. exists w. rewrite Nat2Z.id.
      repeat split; [lia|exact Hw|].
      apply (binary_label_mask w); [|exact Hm].
      apply Hbin. eapply nth_error_In; eauto.
    + intros (w & Hi & Hw & Hone). exists (Z.to_nat i).
      assert (Hlt : (Z.to_nat i < n)%nat).
      { rewrite <- Hlen. apply nth_error_Some. congruence. }
      split.
      * apply nth_error_arange. split; [exact Hlt|lia].
      * rewrite nth_error_map, Hw. simpl. f_equal.
        apply (binary_label_mask w); [|exact Hone].
        apply Hbin. eapply nth_error_In; eauto.
  - rewrite (mask_select_In _ _ _ Hv0). split.
    + intros (k & Hk & Hm). apply nth_error_arange in Hk. destruct Hk as [Hk ->].
      rewrite !nth_error_map in Hm.
      destruct (nth_error y k) as [w|] eqn:Hw; [|discriminate].
      injection Hm as Hm. apply negb_true_iff in Hm.
      exists w. rewrite Nat2Z.id.
      repeat split; [lia|exact Hw|].
      apply (binary_label_mask w); [|exact Hm].
      apply Hbin. eapply nth_error_In; eauto.
    + intros (w & Hi & Hw & Hzero). exists (Z.to_nat i).
      assert (Hlt : (Z.to_nat i < n)%nat).
      { rewrite <- Hlen. apply nth_error_Some. congruence. }
      split.
      * apply nth_error_arange. split; [exact Hlt|lia].
      * rewrite !nth_error_map, Hw. simpl. f_equal. apply negb_true_iff.
        apply (binary_label_mask w); [|exact Hzero].
        apply Hbin. eapply nth_error_In; eauto.
Qed.

Lemma unzip_relevant_total (idx : list Z) (y : list Q) :
  length idx = length y -> exists pos neg, _unzip_relevant idx y = Ok (pos, neg).
Proof.
  intros Hlen. unfold _unzip_relevant.
  destruct (mask_select_total idx (map (fun v => Np.gt v (1 # 2)) y))
    as (pos & ->); [rewrite length_map; exact Hlen|].
  destruct (mask_select_total idx
              (map negb (map (fun v => Np.gt v (1 # 2)) y)))
    as (neg & ->); [rewrite !length_map; exact Hlen|].
  simpl. eauto.
Qed.

Lemma unzip_relevant_structure (idx : list Z) (y : list Q) (pos neg : list Z) :
  _unzip_relevant idx y = Ok (pos, neg) ->
  Permutation (pos ++ neg) idx /\
  (StronglySorted Z.lt idx ->
   StronglySorted Z.lt pos /\ StronglySorted Z.lt neg).
Proof.
  intros H. unfold _unzip_relevant in H.
  bind_inv H. bind_inv H. injection H as <- <-. split.
  - eapply mask_select_partition; eauto.
  - intros Hs. split; eapply mask_select_sorted; eauto.
Qed.

(** The index arrays that [fit] leaves on the object, whether or not it
    goes on to raise. *)
Lemma fit_assigns_indices {row : Type} {sk : Sklearn row}
  (X X' : list row) (y : list Q) (self : NearestNeighborRanker.t row)
  (pos neg : list Z) :
  check_array X = Ok X' ->
  _unzip_relevant (Np.arange (length X')) y = Ok (pos, neg) ->
  NearestNeighborRanker._index_p (snd (NearestNeighborRanker.fit X y self))
    = Some pos /\
  NearestNeighborRanker._index_n (snd (NearestNeighborRanker.fit X y self))
    = Some neg.
Proof.
  intros Hc Hu. unfold NearestNeighborRanker.fit, bindA, lift, modify, raise, ret.
  rewrite Hc, Hu.
  destruct (0 <? length pos)%nat; [|simpl; auto].
  destruct (Np.take X' pos); [|simpl; auto].
  destruct (0 <? length neg)%nat; [|simpl; auto].
  destruct (Np.take X' neg); simpl; auto.
Qed.

(** C7: on binary labels [fit] partitions the row indices [0 .. n-1]:
    [positive_ids] holds exactly the indices labelled 1 and [negative_ids]
    exactly those labelled 0, both in increasing order; the two are
    disjoint and every index lies in exactly one of them. *)
Theorem fit_index_partition {row : Type} {sk : Sklearn row}
  (X X' : list row) (y : list Q) (self : NearestNeighborRanker.t row) :
  check_array X = Ok X' ->
  length y = length X' ->
  Forall (fun v => v == 0 \/ v == 1)%Q y ->
  exists positive_ids negative_ids,
    _unzip_relevant (Np.arange (length X')) y
      = Ok (positive_ids, negative_ids) /\
    NearestNeighborRanker._index_p (snd (NearestNeighborRanker.fit X y self))
      = Some positive_ids /\
    NearestNeighborRanker._index_n (snd (NearestNeighborRanker.fit X y self))
      = Some negative_ids /\
    (forall i, In i positive_ids <->
       exists v, 0 <= i /\ nth_error y (Z.to_nat i) = Some v /\ (v == 1)%Q) /\
    (forall i, In i negative_ids <->
       exists v, 0 <= i /\ nth_error y (Z.to_nat i) = Some v /\ (v == 0)%Q) /\
    StronglySorted Z.lt positive_ids /\
    StronglySorted Z.lt negative_ids /\
    (forall i, In i positive_ids -> ~ In i negative_ids) /\
    (forall i, 0 <= i < Z.of_nat (length X') ->
       In i positive_ids \/ In i negative_ids) /\
    Permutation (positive_ids ++ negative_ids) (Np.arange (length X')).
Proof.
  intros Hc Hlen Hbin.
  destruct (unzip_relevant_total (Np.arange (length X')) y)
    as (pos & neg & Hu); [rewrite arange_length; auto|].
  exists pos, neg.
  destruct (fit_assigns_indices X X' y self pos neg Hc Hu) as [Hp Hn].
  destruct (unzip_relevant_arange_In _ y pos neg Hbin Hlen Hu) as [Hinp Hinn].
  destruct (unzip_relevant_structure _ _ _ _ Hu) as [Hperm Hsort].
  destruct (Hsort (arange_sorted _)) as [Hsp Hsn].
  split; [exact Hu|]. split; [exact Hp|]. split; [exact Hn|].
  split; [exact Hinp|]. split; [exact Hinn|].
  split; [exact Hsp|]. split; [exact Hsn|].
  split; [|split; [|exact Hperm]]; intros i.
  - intros Hip Hin. apply Hinp in Hip. apply Hinn in Hin.
    destruct Hip as (v & _ & Hv & Hone). destruct Hin as (w & _ & Hw & Hzero).
    rewrite Hv in Hw. injection Hw as <-. rewrite Hone in Hzero.
    revert Hzero. lra.
  - intros Hi. apply in_app_or. eapply Permutation_in.
    + apply Permutation_sym. exact Hperm.
    + apply (nth_error_In _ (Z.to_nat (i))). apply nth_error_arange. lia.
Qed.

(** ** Chunked queries *)

Section Chunks.

Context {row D I : Type}.

(** With a batch size of at least one, batch [k] is the [k]-th block of
    [batch_size] rows. *)
Lemma slice_block (X : list row) (batch_size : Z) (k : nat) :
  1 <= batch_size ->
  Py.slice (Z.of_nat k * batch_size)
           (Z.min ((Z.of_nat k + 1) * batch_size) (Z.of_nat (length X))) X
  = firstn (Z.to_nat batch_size) (skipn (k * Z.to_nat batch_size) X).
Proof.
  intros HB. unfold Py.slice, Py.clip.
  set (b := Z.to_nat batch_size). set (n := length X).
  assert (Hkb : Z.of_nat k * batch_size = Z.of_nat (k * b)).
  { unfold b. rewrite Nat2Z.inj_mul, Z2Nat.id by lia. reflexivity. }
  assert (Hkb1 : (Z.of_nat k + 1) * batch_size = Z.of_nat (k * b + b)).
  { unfold b. rewrite Nat2Z.inj_add, Nat2Z.inj_mul, Z2Nat.id by lia. lia. }
  rewrite Hkb, Hkb1.
  replace (Z.of_nat (k * b) <? 0) with false by (symmetry; apply Z.ltb_ge; lia).
  replace (Z.min (Z.of_nat (k * b + b)) (Z.of_nat n) <? 0) with false
    by (symmetry; apply Z.ltb_ge; lia).
  replace (Z.to_nat (Z.min (Z.of_nat (k * b)) (Z.of_nat n)))
    with (Nat.min (k * b) n) by lia.
  replace (Z.to_nat (Z.min (Z.min (Z.of_nat (k * b + b)) (Z.of_nat n))
                           (Z.of_nat n)))
    with (Nat.min (k * b + b) n) by lia.
  rewrite firstn_skipn_comm. subst n.
  destruct (Nat.le_gt_cases (k * b + b) (length X)) as [Hle|Hgt].
  - rewrite !Nat.min_l by lia. reflexivity.
  - rewrite (Nat.min_r (k * b + b)) by lia.
    rewrite (firstn_all2 (n := k * b + b)) by lia.
    rewrite firstn_all.
    destruct (Nat.le_gt_cases (k * b) (length X)) as [Hle'|Hgt'].
    + rewrite Nat.min_l by lia. reflexivity.
    + rewrite Nat.min_r by lia.
      rewrite !skipn_all2 by lia. reflexivity.
Qed.

(** The number of batches: [ceil(n / batch_size)]. *)
Lemma batch_count (n batch_size : Z) :
  0 <= n -> 1 <= batch_size ->
  let nb := n / batch_size + (if n mod batch_size =? 0 then 0 else 1) in
  0 <= nb /\ n <= nb * batch_size /\ (1 <= n -> 1 <= nb).
Proof.
  intros Hn HB nb.
  pose proof (Z.div_mod n batch_size ltac:(lia)) as Hdm.
  pose proof (Z.mod_pos_bound n batch_size ltac:(lia)) as Hmod.
  pose proof (Z.div_pos n batch_size Hn ltac:(lia)) as Hq.
  unfold nb. destruct (n mod batch_size =? 0) eqn:Hz.
  - apply Z.eqb_eq in Hz. repeat split; try nia.
  - apply Z.eqb_neq in Hz. repeat split; try nia.
Qed.

Lemma concat_snoc {A : Type} (ls : list (list A)) (l : list A) :
  concat (ls ++ [l]) = concat ls ++ l.
Proof. rewrite concat_app. simpl. rewrite app_nil_r. reflexivity. Qed.

(** The batch size zero, a negative batch size and an empty matrix all make
    [_chunk_kneighbors] raise, whatever the callable. *)
Lemma chunk_kneighbors_empty (func : list row -> result (list D * list I))
  (batch_size : Z) :
  1 <= batch_size ->
  _chunk_kneighbors func [] batch_size
  = Raise (ValueError "need at least one array to concatenate").
Proof.
  intros HB. unfold _chunk_kneighbors, Py.floordiv, Py.mod_. simpl length.
  replace (batch_size =? 0) with false by (symmetry; apply Z.eqb_neq; lia).
  simpl. reflexivity.
Qed.

Lemma chunk_kneighbors_Ok_inv (func : list row -> result (list D * list I))
  (X : list row) (batch_size : Z) (r : list D * list I) :
  _chunk_kneighbors func X batch_size = Ok r -> 1 <= batch_size /\ X <> [].
Proof.
  intros H.
  destruct (Z.lt_trichotomy batch_size 0) as [Hneg|[Hz|Hpos]].
  - exfalso. unfold _chunk_kneighbors, Py.floordiv, Py.mod_ in H.
    replace (batch_size =? 0) with false in H
      by (symmetry; apply Z.eqb_neq; lia).
    simpl in H.
    set (n := Z.of_nat (length X)) in *.
    assert (Hnb : n / batch_size + (if n mod batch_size =? 0 then 0 else 1) <= 0).
    { pose proof (Z.div_mod n batch_size ltac:(lia)) as Hdm.
      pose proof (Z.mod_neg_bound n batch_size Hneg) as Hmod.
      assert (0 <= n) by (unfold n; lia).
      destruct (n mod batch_size =? 0) eqn:Hm.
      - apply Z.eqb_eq in Hm. nia.
      - apply Z.eqb_neq in Hm. nia. }
    unfold Py.range in H.
    replace (Z.to_nat _) with 0%nat in H by lia.
    simpl in H. discriminate.
  - subst. discriminate.
  - split; [lia|]. intros ->.
    rewrite chunk_kneighbors_empty in H by lia. discriminate.
Qed.

Section Rowwise.

(** A per-batch callable that answers every row on its own: [f] is the
    answer for one row, [g] and [h] extract its distance and index parts. *)
Context {R : Type}.
Variable func : list row -> result (list D * list I).
Variable f : row -> result R.
Variables (g : R -> D) (h : R -> I).
Hypothesis func_rowwise :
  forall X, func X = (r <- mapM f X ;; Ok (map g r, map h r)).

Variable X : list row.
Variable batch_size : Z.
Hypothesis batch_size_pos : 1 <= batch_size.

Local Abbreviation b := (Z.to_nat batch_size).
Local Abbreviation n_samples := (Z.of_nat (length X)).

(** Running the batches [k0, ..., k0 + m - 1] when they cover the rest of
    the matrix: the accumulated blocks concatenate to the answers for the
    rows from [k0 * batch_size] on, in their order. *)
Lemma chunk_loop_rowwise (m k0 : nat) (ind_arr : list (list I))
  (dist_arr : list (list D)) :
  (length (skipn (k0 * b) X) <= m * b)%nat ->
  match mapM f (skipn (k0 * b) X) with
  | Raise e =>
      chunk_loop func X batch_size n_samples (map Z.of_nat (seq k0 m))
                 ind_arr dist_arr = Raise e
  | Ok r =>
      exists ind_arr' dist_arr',
        chunk_loop func X batch_size n_samples (map Z.of_nat (seq k0 m))
                   ind_arr dist_arr = Ok (ind_arr', dist_arr') /\
        concat ind_arr' = concat ind_arr ++ map h r /\
        concat dist_arr' = concat dist_arr ++ map g r /\
        length ind_arr' = (length ind_arr + m)%nat /\
        length dist_arr' = (length dist_arr + m)%nat
  end.
Proof.
  revert k0 ind_arr dist_arr.
  induction m as [|m IH]; intros k0 ind_arr dist_arr Hlen.
  - simpl in Hlen. apply Nat.le_0_r, length_zero_iff_nil in Hlen.
    rewrite Hlen. simpl. exists ind_arr, dist_arr.
    rewrite !app_nil_r, !Nat.add_0_r. auto.
  - cbn [seq map chunk_loop].
    rewrite slice_block by exact batch_size_pos.
    set (S0 := skipn (k0 * b) X) in *.
    rewrite func_rowwise.
    assert (Hsplit : mapM f S0 =
                     (r1 <- mapM f (firstn b S0) ;;
                      r2 <- mapM f (skipn b S0) ;; Ok (r1 ++ r2))).
    { rewrite <- mapM_app, firstn_skipn. reflexivity. }
    rewrite Hsplit.
    destruct (mapM f (firstn b S0)) as [r1|e]; simpl; [|reflexivity].
    assert (Hrest : skipn b S0 = skipn (S k0 * b) X).
    { unfold S0. rewrite skipn_skipn. f_equal. }
    assert (Hlen' : (length (skipn (S k0 * b) X) <= m * b)%nat).
    { rewrite <- Hrest, length_skipn. simpl in Hlen. lia. }
    specialize (IH (S k0) (ind_arr ++ [map h r1]) (dist_arr ++ [map g r1]) Hlen').
    rewrite Hrest.
    destruct (mapM f (skipn (S k0 * b) X)) as [r2|e]; simpl; [|exact IH].
    destruct IH as (ia & da & Hloop & Hia & Hda & Hli & Hld).
    exists ia, da. rewrite Hloop, Hia, Hda, Hli, Hld.
    rewrite !concat_snoc, !map_app, <- !app_assoc, !length_app. simpl.
    repeat split; lia.
Qed.

(** The contract of [_chunk_kneighbors]: on a non-empty matrix and with a
    batch size of at least one the chunked run is the single call. *)
Lemma chunk_kneighbors_rowwise :
  X <> [] -> _chunk_kneighbors func X batch_size = func X.
Proof.
  intros Hne. unfold _chunk_kneighbors, Py.floordiv, Py.mod_.
  replace (batch_size =? 0) with false by (symmetry; apply Z.eqb_neq; lia).
  simpl.
  destruct (batch_count (Z.of_nat (length X)) batch_size ltac:(lia)
                        batch_size_pos) as (Hnb0 & Hcover & Hnb1).
  set (nb := Z.of_nat (length X) / batch_size
             + (if Z.of_nat (length X) mod batch_size =? 0 then 0 else 1)) in *.
  assert (Hlen : (length (skipn (0 * b) X) <= Z.to_nat nb * b)%nat).
  { simpl. nia. }
  pose proof (chunk_loop_rowwise (Z.to_nat nb) 0 [] [] Hlen) as Hloop.
  simpl skipn in Hloop. unfold Py.range.
  rewrite func_rowwise.
  destruct (mapM f X) as [r|e]; [|rewrite Hloop; reflexivity].
  destruct Hloop as (ia & da & -> & Hia & Hda & Hli & Hld). simpl in *.
  assert (HX : (1 <= length X)%nat).
  { destruct X; [congruence|simpl; lia]. }
  destruct da as [|d0 da]; [simpl in Hld; lia|].
  destruct ia as [|i0 ia]; [simpl in Hli; lia|].
  simpl in Hia, Hda |- *. rewrite Hia, Hda. reflexivity.
Qed.

End Rowwise.

(** A callable that always raises: the first batch aborts the run. *)
Lemma chunk_kneighbors_raise (func : list row -> result (list D * list I))
  (e : exn) (X : list row) (batch_size : Z) :
  (forall X, func X = Raise e) -> 1 <= batch_size -> X <> [] ->
  _chunk_kneighbors func X batch_size = Raise e.
Proof.
  intros Hf HB Hne. unfold _chunk_kneighbors, Py.floordiv, Py.mod_.
  replace (batch_size =? 0) with false by (symmetry; apply Z.eqb_neq; lia).
  simpl.
  assert (HX : 1 <= Z.of_nat (length X)).
  { destruct X; [congruence|simpl length; lia]. }
  destruct (batch_count (Z.of_nat (length X)) batch_size ltac:(lia) HB)
    as (_ & _ & Hnb1).
  specialize (Hnb1 HX). unfold Py.range.
  destruct (Z.to_nat _) as [|m] eqn:Hm; [lia|].
  simpl. rewrite Hf. reflexivity.
Qed.

End Chunks.

(** ** The fitted index behind the chunked query *)

Section Query.

Context {row : Type} {sk : Sklearn row}.

Import NearestNeighborRanker.

Lemma chunk_nn_kneighbors (m : NearestNeighbors row) (X : list row)
  (batch_size : Z) :
  1 <= batch_size -> X <> [] ->
  _chunk_kneighbors (nn_kneighbors m) X batch_size = nn_kneighbors m X.
Proof.
  intros HB Hne. destruct (_fit_method m) as [name|] eqn:Hm.
  - apply (chunk_kneighbors_rowwise (nn_kneighbors m)
             (nn_query1 (_fit_X m))
             (fun p => [fst p]) (fun p => [snd p])); auto.
    intros X0. unfold nn_kneighbors. rewrite Hm. reflexivity.
  - assert (Hraise : forall X0, nn_kneighbors m X0 = Raise NotFittedError).
    { intros X0. unfold nn_kneighbors. rewrite Hm. reflexivity. }
    rewrite Hraise. apply chunk_kneighbors_raise; auto.
Qed.

Lemma kneighbors_eq_one_call (self : t row) (X : list row) (batch_size : Z) :
  1 <= batch_size -> check_array X <> Ok [] ->
  kneighbors self X batch_size = Reference.kneighbors_one_call self X.
Proof.
  intros HB Hne. unfold kneighbors, Reference.kneighbors_one_call.
  destruct (check_array X) as [X'|e]; [|reflexivity].
  assert (HX : X' <> []) by congruence.
  simpl. rewrite !chunk_nn_kneighbors by assumption. reflexivity.
Qed.

Lemma kneighbors_empty (self : t row) (X : list row) (batch_size : Z) :
  1 <= batch_size -> check_array X = Ok [] ->
  kneighbors self X batch_size
  = Raise (ValueError "need at least one array to concatenate").
Proof.
  intros HB HX. unfold kneighbors. rewrite HX. simpl.
  rewrite chunk_kneighbors_empty by assumption. reflexivity.
Qed.

Lemma kneighbors_Ok_batch (self : t row) (X : list row) (batch_size : Z)
  (r : list Q * list Z * metadata) :
  kneighbors self X batch_size = Ok r ->
  1 <= batch_size /\ check_array X <> Ok [].
Proof.
  unfold kneighbors. intros H. bind_inv H. bind_inv H.
  apply chunk_kneighbors_Ok_inv in Hv0. destruct Hv0 as [HB Hne].
  split; [exact HB|]. rewrite Hv. congruence.
Qed.

End Query.

(** ** numpy on arrays of equal length *)

Lemma col0_singletons {A B : Type} (g : A -> B) (r : list A) :
  Np.col0 (map (fun p => [g p]) r) = Ok (map g r).
Proof.
  unfold Np.col0. induction r as [|x r IH]; simpl; [reflexivity|].
  rewrite IH. reflexivity.
Qed.

Lemma take_length {A : Type} (a : list A) (idx : list Z) (r : list A) :
  Np.take a idx = Ok r -> length r = length idx.
Proof. apply mapM_length. Qed.

Lemma broadcast2_same_length {A B : Type} (a : list A) (b : list B) :
  length a = length b -> Np.broadcast2 a b = Ok (combine a b).
Proof.
  intros H. unfold Np.broadcast2. rewrite H, Nat.eqb_refl. reflexivity.
Qed.

Lemma where_same_length {A : Type} (cond : list bool) (a b : list A) :
  length cond = length a -> length a = length b ->
  Np.where_ cond a b
  = Ok (map (fun t : bool * A * A =>
               if fst (fst t) then snd (fst t) else snd t)
            (combine (combine cond a) b)).
Proof.
  intros Hca Hab. unfold Np.where_.
  rewrite (broadcast2_same_length cond a Hca). simpl.
  rewrite broadcast2_same_length; [reflexivity|].
  rewrite length_combine, Hca, Nat.min_id. exact Hab.
Qed.

Lemma where_on_pairs {A B C : Type} (G : A * B -> bool) (l : list (A * B))
  (a b : list C) :
  map (fun t : bool * C * C => if fst (fst t) then snd (fst t) else snd t)
      (combine (combine (map G l) a) b)
  = map (fun t : A * B * (C * C) =>
           if G (fst t) then fst (snd t) else snd (snd t))
        (combine l (combine a b)).
Proof.
  revert a b. induction l as [|p l IH]; intros [|x a] [|y b]; simpl;
    try reflexivity.
  rewrite IH. reflexivity.
Qed.

Lemma combine_map_map {A B A' B' : Type} (f : A -> A') (g : B -> B')
  (a : list A) (b : list B) :
  combine (map f a) (map g b)
  = map (fun p => (f (fst p), g (snd p))) (combine a b).
Proof.
  revert b. induction a as [|x a IH]; intros [|y b]; simpl;
    try reflexivity.
  rewrite IH. reflexivity.
Qed.

Lemma combine_diag {A B : Type} (a : list A) (b : list B) :
  combine (combine a b) (combine a b)
  = map (fun p => (p, p)) (combine a b).
Proof.
  induction (combine a b) as [|p l IH]; simpl; [reflexivity|].
  rewrite IH. reflexivity.
Qed.

Lemma nth_error_combine {A B : Type} (a : list A) (b : list B) (i : nat)
  (x : A) (y : B) :
  nth_error a i = Some x -> nth_error b i = Some y ->
  nth_error (combine a b) i = Some (x, y).
Proof.
  revert b i. induction a as [|x0 a IH]; intros [|y0 b] [|i]; simpl;
    try discriminate.
  - intros [= ->] [= ->]. reflexivity.
  - apply IH.
Qed.

(** ** The fusion rule on arrays of equal length *)

Section Fusion.

Local Open Scope Q_scope.

Import NearestNeighborRanker.

Lemma ranking_score_supervised (d_p d_n : list Q) :
  length d_p = length d_n ->
  _ranking_score d_p (Some d_n) = Ok (map Reference.fuse (combine d_p d_n)).
Proof.
  intros Hlen. unfold _ranking_score, Np.gt_arr.
  rewrite broadcast2_same_length by (rewrite !length_map; exact Hlen).
  simpl.
  rewrite where_same_length;
    [|rewrite !length_map, length_combine, !length_map, Hlen;
      apply Nat.min_id
     |rewrite !length_map; exact Hlen].
  simpl. f_equal.
  rewrite where_on_pairs, !combine_map_map.
  generalize (combine d_p d_n) as l. intros l.
  induction l as [|[dp dn] l IH]; simpl; [reflexivity|].
  rewrite IH. f_equal. unfold Reference.fuse. simpl.
  destruct (Np.gt (1 - dp) (1 - dn)); reflexivity.
Qed.

Lemma ranking_score_positive (d_p : list Q) :
  _ranking_score d_p None = Ok (map Reference.positive_score d_p).
Proof. unfold _ranking_score. rewrite map_map. reflexivity. Qed.

Lemma winning_index_supervised (D_p D_n : list Q) (ind_p ind_n : list Z) :
  length D_p = length D_n -> length D_p = length ind_p ->
  length ind_p = length ind_n ->
  (cond <- Np.le_arr D_p D_n ;; Np.where_ cond ind_p ind_n)
  = Ok (map Reference.pick
            (combine (combine D_p D_n) (combine ind_p ind_n))).
Proof.
  intros H1 H2 H3. unfold Np.le_arr.
  rewrite broadcast2_same_length by exact H1. simpl.
  rewrite where_same_length;
    [|rewrite length_map, length_combine, <- H1, Nat.min_id; exact H2
     |exact H3].
  rewrite where_on_pairs. reflexivity.
Qed.

End Fusion.

(** ** What a successful query returns *)

Section QueryResult.

Context {row : Type} {sk : Sklearn row}.

Import NearestNeighborRanker.

Local Open Scope Q_scope.

Lemma nn_kneighbors_Ok_inv (m : NearestNeighbors row) (X : list row)
  (D : list (list Q)) (I : list (list Z)) :
  nn_kneighbors m X = Ok (D, I) ->
  exists r,
    _fit_method m <> None /\
    mapM (nn_query1 (_fit_X m)) X = Ok r /\
    D = map (fun p => [fst p]) r /\ I = map (fun p => [snd p]) r.
Proof.
  unfold nn_kneighbors. destruct (_fit_method m); [|discriminate].
  intros H. bind_inv H. injection H as <- <-.
  exists v. repeat split; auto. discriminate.
Qed.

Lemma one_call_Ok_inv (self : t row) (X : list row) (score : list Q)
  (ind : list Z) (md : metadata) :
  Reference.kneighbors_one_call self X = Ok (score, ind, md) ->
  exists X',
    check_array X = Ok X' /\
    Reference.answered (_mod_p self) (_index_p self) X' (dist_p md) (ind_p md) /\
    match _fit_method (_mod_n self) with
    | None =>
        dist_n md = None /\ ind_n md = None /\ ind = ind_p md /\
        score = map Reference.positive_score (dist_p md)
    | Some _ =>
        exists D_n I_n,
          dist_n md = Some D_n /\ ind_n md = Some I_n /\
          Reference.answered (_mod_n self) (_index_n self) X' D_n I_n /\
          if String.eqb (ranking_ self) "supervised"
          then score = map Reference.fuse (combine (dist_p md) D_n) /\
               ind = map Reference.pick
                         (combine (combine (dist_p md) D_n)
                                  (combine (ind_p md) I_n))
          else ind = ind_p md /\
               score = map Reference.positive_score (dist_p md)
    end.
Proof.
  unfold Reference.kneighbors_one_call. intros H.
  bind_inv H as X' HX. exists X'. split; [exact HX|].
  bind_inv H as pq Hpq. destruct pq as [D_p idx_p_loc].
  apply nn_kneighbors_Ok_inv in Hpq.
  destruct Hpq as (rp & Hfit_p & Hrp & -> & ->).
  rewrite !col0_singletons in H. cbn [bind] in H.
  bind_inv H as index_p Hip.
  destruct (_index_p self) as [index_p'|]; [|discriminate].
  injection Hip as ->.
  bind_inv H as ind_p0 Htake_p.
  rewrite map_map in H.
  assert (Hlen_p : length (map (fun p : Q * Z => fst p / 2) rp)
                   = length ind_p0).
  { rewrite (take_length _ _ _ Htake_p), !length_map. reflexivity. }
  bind_inv H as res Hres. destruct res as [[D_n ind0] md0].
  bind_inv H as score0 Hscore. injection H as <- <- <-.
  assert (Hpos : Reference.answered (_mod_p self) (Some index_p) X'
                   (map (fun p : Q * Z => fst p / 2) rp) ind_p0).
  { exists rp, index_p. auto. }
  destruct (_fit_method (_mod_n self)) as [name|] eqn:Hfn.
  - bind_inv Hres as nq Hnq. destruct nq as [D_n1 idx_n_loc].
    apply nn_kneighbors_Ok_inv in Hnq.
    destruct Hnq as (rn & Hfit_n & Hrn & -> & ->).
    rewrite !col0_singletons in Hres. cbn [bind] in Hres.
    bind_inv Hres as index_n Hin.
    destruct (_index_n self) as [index_n'|]; [|discriminate].
    injection Hin as ->.
    bind_inv Hres as ind_n0 Htake_n.
    rewrite map_map in Hres.
    bind_inv Hres as ind1 Hind. injection Hres as <- <- <-.
    assert (Hlen_pn : length (map (fun p : Q * Z => fst p / 2) rp)
                      = length (map (fun p : Q * Z => fst p / 2) rn)).
    { rewrite !length_map.
      rewrite (mapM_length _ _ _ Hrp), (mapM_length _ _ _ Hrn). reflexivity. }
    assert (Hlen_n : length ind_p0 = length ind_n0).
    { rewrite (take_length _ _ _ Htake_p), (take_length _ _ _ Htake_n).
      rewrite !length_map.
      rewrite (mapM_length _ _ _ Hrp), (mapM_length _ _ _ Hrn). reflexivity. }
    cbn [dist_p ind_p dist_n ind_n].
    split; [exact Hpos|].
    exists (map (fun p : Q * Z => fst p / 2) rn), ind_n0.
    split; [reflexivity|]. split; [reflexivity|].
    split; [exists rn, index_n; auto|].
    destruct (String.eqb (ranking_ self) "supervised").
    + rewrite ranking_score_supervised in Hscore by exact Hlen_pn.
      rewrite winning_index_supervised in Hind by assumption.
      injection Hscore as <-. injection Hind as <-. auto.
    + injection Hind as <-.
      destruct (String.eqb (ranking_ self) "unsupervised"); [|discriminate].
      rewrite ranking_score_positive in Hscore. injection Hscore as <-. auto.
  - injection Hres as <- <- <-. cbn [dist_p ind_p dist_n ind_n].
    split; [exact Hpos|].
    repeat split.
    destruct (String.eqb (ranking_ self) "supervised").
    + rewrite ranking_score_positive in Hscore. injection Hscore as <-.
      reflexivity.
    + destruct (String.eqb (ranking_ self) "unsupervised"); [|discriminate].
      rewrite ranking_score_positive in Hscore. injection Hscore as <-.
      reflexivity.
Qed.

Lemma kneighbors_Ok_inv (self : t row) (X : list row) (batch_size : Z)
  (score : list Q) (ind : list Z) (md : metadata) :
  kneighbors self X batch_size = Ok (score, ind, md) ->
  Reference.kneighbors_one_call self X = Ok (score, ind, md).
Proof.
  intros H. destruct (kneighbors_Ok_batch _ _ _ _ H) as [HB Hne].
  rewrite <- H. symmetry. apply kneighbors_eq_one_call; assumption.
Qed.

Lemma answered_length (m : NearestNeighbors row) (index : option (list Z))
  (X : list row) (D : list Q) (ind : list Z) :
  Reference.answered m index X D ind ->
  length D = length X /\ length ind = length X.
Proof.
  intros (r & idx & _ & Hr & _ & -> & Htake).
  rewrite (take_length _ _ _ Htake), !length_map.
  rewrite (mapM_length _ _ _ Hr). auto.
Qed.

Lemma answered_row (m : NearestNeighbors row) (index : option (list Z))
  (X : list row) (D : list Q) (ind : list Z) (i : nat) (x : row) :
  Reference.answered m index X D ind ->
  nth_error X i = Some x ->
  exists d loc idx g,
    nn_query1 (_fit_X m) x = Ok (d, loc) /\
    index = Some idx /\
    Np.getitem idx loc = Ok g /\
    nth_error D i = Some (d / 2) /\
    nth_error ind i = Some g.
Proof.
  intros (r & idx & _ & Hr & -> & -> & Htake) Hx.
  destruct (mapM_nth_error _ _ _ _ _ Hr Hx) as ([d loc] & Hq & Hri).
  assert (Hloc : nth_error (map snd r) i = Some loc).
  { rewrite nth_error_map, Hri. reflexivity. }
  destruct (mapM_nth_error _ _ _ _ _ Htake Hloc) as (g & Hg & Hgi).
  exists d, loc, idx, g. repeat split; auto.
  rewrite nth_error_map, Hri. reflexivity.
Qed.

(** Row [i] of the result is the answer for row [i] of the query. *)
Lemma kneighbors_rows (self : t row) (X X' : list row) (batch_size : Z)
  (score : list Q) (ind : list Z) (md : metadata) :
  kneighbors self X batch_size = Ok (score, ind, md) ->
  check_array X = Ok X' ->
  length score = length X' /\ length ind = length X' /\
  forall i x, nth_error X' i = Some x ->
    exists s w,
      Reference.kneighbors_row self x = Ok (s, w) /\
      nth_error score i = Some s /\ nth_error ind i = Some w.
Proof.
  intros H HX. apply kneighbors_Ok_inv, one_call_Ok_inv in H.
  destruct H as (X0 & HX0 & Hp & Hn).
  rewrite HX in HX0. injection HX0 as <-.
  destruct (answered_length _ _ _ _ _ Hp) as [HlDp HlIp].
  unfold Reference.kneighbors_row.
  destruct (_fit_method (_mod_n self)) as [name|].
  - destruct Hn as (D_n & I_n & HDn & HIn & Hneg & Hmode).
    destruct (answered_length _ _ _ _ _ Hneg) as [HlDn HlIn].
    destruct (String.eqb (ranking_ self) "supervised").
    + destruct Hmode as [-> ->].
      rewrite !length_map, !length_combine, HlDp, HlDn, HlIp, HlIn.
      rewrite !Nat.min_id. repeat split.
      intros i x Hx.
      destruct (answered_row _ _ _ _ _ i x Hp Hx)
        as (dp & lp & idxp & gp & -> & -> & Hgp & HDi & HIi).
      destruct (answered_row _ _ _ _ _ i x Hneg Hx)
        as (dn & ln & idxn & gn & -> & -> & Hgn & HDni & HIni).
      simpl. rewrite Hgp. simpl. rewrite Hgn. simpl.
      eexists _, _. split; [reflexivity|].
      pose proof (nth_error_combine _ _ _ _ _ HDi HDni) as Hdd.
      pose proof (nth_error_combine _ _ _ _ _ HIi HIni) as Hii.
      pose proof (nth_error_combine _ _ _ _ _ Hdd Hii) as Hall.
      rewrite !nth_error_map, Hdd, Hall. auto.
    + destruct Hmode as [-> ->]. rewrite length_map.
      repeat split; auto.
      intros i x Hx.
      destruct (answered_row _ _ _ _ _ i x Hp Hx)
        as (dp & lp & idxp & gp & -> & -> & Hgp & HDi & HIi).
      destruct (answered_row _ _ _ _ _ i x Hneg Hx)
        as (dn & ln & idxn & gn & -> & -> & Hgn & HDni & HIni).
      simpl. rewrite Hgp. simpl. rewrite Hgn. simpl.
      eexists _, _. split; [reflexivity|].
      rewrite nth_error_map, HDi. auto.
  - destruct Hn as (_ & _ & -> & ->). rewrite length_map.
    repeat split; auto.
    intros i x Hx.
    destruct (answered_row _ _ _ _ _ i x Hp Hx)
      as (dp & lp & idxp & gp & -> & -> & Hgp & HDi & HIi).
    simpl. rewrite Hgp. simpl.
    eexists _, _. split; [reflexivity|].
    rewrite nth_error_map, HDi. auto.
Qed.

(** C3: the batch size does not affect the result.  For batch sizes of at
    least one, [kneighbors] returns the same scores, winning indices and
    diagnostics, which are those of the query run in one call (given that
    [check_array] rejects an empty matrix, as scikit-learn's does); each
    chunked index query is the single index query; and row [i] of the
    result is the answer for row [i] of the query matrix. *)
Theorem kneighbors_batch_size_invariant (self : t row) (X : list row)
  (B1 B2 : Z) :
  (1 <= B1)%Z -> (1 <= B2)%Z ->
  kneighbors self X B1 = kneighbors self X B2 /\
  (check_array X <> Ok [] ->
   kneighbors self X B1 = Reference.kneighbors_one_call self X) /\
  (forall (m : NearestNeighbors row) (X' : list row), X' <> [] ->
   _chunk_kneighbors (nn_kneighbors m) X' B1 = nn_kneighbors m X') /\
  (forall X' score ind md,
     check_array X = Ok X' ->
     kneighbors self X B1 = Ok (score, ind, md) ->
     length score = length X' /\ length ind = length X' /\
     forall i x, nth_error X' i = Some x ->
       exists s w,
         Reference.kneighbors_row self x = Ok (s, w) /\
         nth_error score i = Some s /\ nth_error ind i = Some w).
Proof.
  intros H1 H2. split; [|split; [|split]].
  - destruct (check_array X) as [[|x X']|e] eqn:HX.
    + rewrite !kneighbors_empty by assumption. reflexivity.
    + rewrite !kneighbors_eq_one_call by (try rewrite HX; auto; discriminate).
      reflexivity.
    + unfold kneighbors. rewrite HX. reflexivity.
  - intros Hne. apply kneighbors_eq_one_call; assumption.
  - intros m X' Hne. apply chunk_nn_kneighbors; assumption.
  - intros X' score ind md HX H. eapply kneighbors_rows; eauto.
Qed.

(** C1: in supervised mode with both indices fitted, with [S_p = 1 - D_p]
    and [S_n = 1 - D_n], the score of a row is [(S_p + 1) / 2] when
    [S_p > S_n] and [(-1 - S_n) / 2] otherwise, so that equal distances take
    the negative branch; the winning index is [ind_p] when [D_p <= D_n] and
    [ind_n] otherwise. *)
Theorem supervised_fusion_rule (self : t row) (X : list row) (batch_size : Z)
  (score : list Q) (ind : list Z) (md : metadata) :
  ranking_ self = "supervised"%string ->
  _fit_method (_mod_n self) <> None ->
  kneighbors self X batch_size = Ok (score, ind, md) ->
  exists D_n I_n,
    dist_n md = Some D_n /\ ind_n md = Some I_n /\
    length score = length (dist_p md) /\
    length ind = length (dist_p md) /\
    length D_n = length (dist_p md) /\
    length (ind_p md) = length (dist_p md) /\
    length I_n = length (dist_p md) /\
    forall i D_p_i D_n_i ind_p_i ind_n_i,
      nth_error (dist_p md) i = Some D_p_i ->
      nth_error D_n i = Some D_n_i ->
      nth_error (ind_p md) i = Some ind_p_i ->
      nth_error I_n i = Some ind_n_i ->
      let S_p := 1 - D_p_i in
      let S_n := 1 - D_n_i in
      exists s w,
        nth_error score i = Some s /\ nth_error ind i = Some w /\
        (S_p > S_n -> s = (S_p + 1) / 2) /\
        (~ S_p > S_n -> s = (-1 - S_n) / 2) /\
        (D_p_i == D_n_i -> s = (-1 - S_n) / 2) /\
        (D_p_i <= D_n_i -> w = ind_p_i) /\
        (~ D_p_i <= D_n_i -> w = ind_n_i).
Proof.
  intros Hmode Hfit H. apply kneighbors_Ok_inv, one_call_Ok_inv in H.
  destruct H as (X' & HX & Hp & Hn).
  destruct (_fit_method (_mod_n self)) as [name|]; [|congruence].
  destruct Hn as (D_n & I_n & HDn & HIn & Hneg & Hrule).
  rewrite Hmode in Hrule. simpl in Hrule. destruct Hrule as [-> ->].
  destruct (answered_length _ _ _ _ _ Hp) as [HlDp HlIp].
  destruct (answered_length _ _ _ _ _ Hneg) as [HlDn HlIn].
  exists D_n, I_n. split; [exact HDn|]. split; [exact HIn|].
  rewrite !length_map, !length_combine, HlDp, HlDn, HlIp, HlIn, !Nat.min_id.
  repeat (split; [reflexivity|]).
  intros i dp dn ip inn Hdp Hdn Hipi Hinn S_p S_n.
  pose proof (nth_error_combine _ _ _ _ _ Hdp Hdn) as Hdd.
  pose proof (nth_error_combine _ _ _ _ _ Hipi Hinn) as Hii.
  pose proof (nth_error_combine _ _ _ _ _ Hdd Hii) as Hall.
  eexists _, _. rewrite !nth_error_map, Hdd, Hall. simpl.
  split; [reflexivity|]. split; [reflexivity|].
  unfold Reference.fuse, Reference.pick. simpl. fold S_p S_n.
  destruct (Np.gt S_p S_n) eqn:Hgt;
    [apply gt_true_iff in Hgt|apply gt_false_iff in Hgt];
    (destruct (Np.le dp dn) eqn:Hle;
     [apply le_true_iff in Hle|apply le_false_iff in Hle]);
    repeat split; intros; try reflexivity; try contradiction;
    exfalso; unfold S_p, S_n in *; lra.
Qed.

(** C2, as amended: when the halved distances [D_p] and [D_n] lie in
    [[0, 1]], as they do for L2-normalized rows whose Euclidean distance is
    at most 2, every score lies in [[-1, 1]]. *)
Theorem score_range_on_normalized_distances (self : t row) (X : list row)
  (batch_size : Z) (score : list Q) (ind : list Z) (md : metadata) :
  kneighbors self X batch_size = Ok (score, ind, md) ->
  Forall (fun d => 0 <= d <= 1) (dist_p md) ->
  (forall D_n, dist_n md = Some D_n -> Forall (fun d => 0 <= d <= 1) D_n) ->
  Forall (fun s => -1 <= s <= 1) score.
Proof.
  intros H HDp HDn. apply kneighbors_Ok_inv, one_call_Ok_inv in H.
  destruct H as (X' & HX & Hp & Hn).
  assert (Hpos : Forall (fun s => -1 <= s <= 1)
                        (map Reference.positive_score (dist_p md))).
  { rewrite Forall_forall in *. intros s Hs. apply in_map_iff in Hs.
    destruct Hs as (d & <- & Hd). specialize (HDp d Hd).
    unfold Reference.positive_score. lra_half. }
  destruct (_fit_method (_mod_n self)) as [name|].
  - destruct Hn as (D_n & I_n & HDn' & _ & _ & Hrule).
    specialize (HDn D_n HDn').
    destruct (String.eqb (ranking_ self) "supervised").
    + destruct Hrule as [-> _]. rewrite Forall_forall in *.
      intros s Hs. apply in_map_iff in Hs.
      destruct Hs as ([dp dn] & <- & Hd).
      pose proof (HDp dp (in_combine_l _ _ _ _ Hd)).
      pose proof (HDn dn (in_combine_r _ _ _ _ Hd)).
      unfold Reference.fuse. simpl.
      destruct (Np.gt (1 - dp) (1 - dn)); lra_half.
    + destruct Hrule as [_ ->]. exact Hpos.
  - destruct Hn as (_ & _ & _ & ->). exact Hpos.
Qed.

(** ** [fit] followed by a query *)

Lemma init_Ok_inv (ranking : string) (self : t row) :
  __init__ row ranking = Ok self ->
  self = {| _mod_p := nn_new row; _mod_n := nn_new row; ranking_ := ranking;
            _index_p := None; _index_n := None |} /\
  (ranking = "supervised"%string \/ ranking = "unsupervised"%string).
Proof.
  unfold __init__, Py.str_in. simpl.
  destruct (String.eqb ranking "supervised") eqn:Hs.
  - intros [= <-]. apply String.eqb_eq in Hs. auto.
  - destruct (String.eqb ranking "unsupervised") eqn:Hu; [|discriminate].
    intros [= <-]. apply String.eqb_eq in Hu. auto.
Qed.

Lemma fit_Ok_inv (X : list row) (y : list Q) (self0 self : t row) :
  fit X y self0 = (Ok tt, self) ->
  exists X' pos neg X_p,
    check_array X = Ok X' /\
    _unzip_relevant (Np.arange (length X')) y = Ok (pos, neg) /\
    pos <> [] /\
    Np.take X' pos = Ok X_p /\
    _index_p self = Some pos /\ _index_n self = Some neg /\
    _mod_p self = nn_fit X_p /\
    ranking_ self = ranking_ self0 /\
    match neg with
    | [] => _mod_n self = _mod_n self0
    | _ => exists X_n, Np.take X' neg = Ok X_n /\ _mod_n self = nn_fit X_n
    end.
Proof.
  unfold fit, bindA, lift, modify, raise, ret.
  destruct (check_array X) as [X'|e]; [|discriminate].
  destruct (_unzip_relevant (Np.arange (length X')) y) as [[pos neg]|e] eqn:Hu;
    [|discriminate].
  destruct pos as [|p pos]; [discriminate|].
  cbn [length Nat.ltb Nat.leb].
  destruct (Np.take X' (p :: pos)) as [X_p|e] eqn:Hp; [|discriminate].
  destruct neg as [|n neg]; cbn [length Nat.ltb Nat.leb].
  - simpl. intros Heq. assert (Hs : self = set_mod_p (nn_fit X_p) (set_index (p :: pos) [] self0)) by congruence.
    subst self. exists X', (p :: pos), [], X_p.
    repeat split; auto. discriminate.
  - destruct (Np.take X' (n :: neg)) as [X_n|e] eqn:Hn; [|discriminate].
    simpl. intros Heq.
    assert (Hs : self = set_mod_n (nn_fit X_n)
                   (set_mod_p (nn_fit X_p)
                      (set_index (p :: pos) (n :: neg) self0)))
      by congruence.
    subst self. exists X', (p :: pos), (n :: neg), X_p.
    repeat split; auto; [discriminate|]. exists X_n. auto.
Qed.

Lemma take_in_range {A : Type} (a : list A) (idx : list Z) :
  Forall (fun j => (0 <= j < Z.of_nat (length a))%Z) idx ->
  exists r, Np.take a idx = Ok r.
Proof.
  unfold Np.take. induction 1 as [|j idx Hj _ IH]; simpl; [eauto|].
  destruct IH as (r & ->).
  unfold Np.getitem.
  replace (j <? 0)%Z with false by (symmetry; apply Z.ltb_ge; lia).
  replace ((0 <=? j)%Z && (j <? Z.of_nat (length a))%Z) with true
    by (symmetry; apply andb_true_iff; split;
        [apply Z.leb_le|apply Z.ltb_lt]; lia).
  destruct (nth_error a (Z.to_nat j)) as [x|] eqn:Hx.
  - simpl. eauto.
  - apply nth_error_None in Hx. lia.
Qed.

(** A query against a ranker whose negative index is not fitted. *)
Lemma query_without_negative_index (self : t row) (X X' : list row)
  (batch_size : Z) (index_p : list Z) (rp : list (Q * Z)) (ind_p0 : list Z) :
  _fit_method (_mod_n self) = None ->
  _fit_method (_mod_p self) <> None ->
  _index_p self = Some index_p ->
  ranking_ self = "supervised"%string \/ ranking_ self = "unsupervised"%string ->
  check_array X = Ok X' -> X' <> [] -> (1 <= batch_size)%Z ->
  mapM (nn_query1 (_fit_X (_mod_p self))) X' = Ok rp ->
  Np.take index_p (map snd rp) = Ok ind_p0 ->
  kneighbors self X batch_size
  = Ok (map (fun p => Reference.positive_score (fst p / 2)) rp, ind_p0,
        {| dist_p := map (fun p => fst p / 2) rp; ind_p := ind_p0;
           ind_n := None; dist_n := None |}).
Proof.
  intros Hfn Hfp Hip Hmode HX Hne HB Hrp Htake.
  rewrite kneighbors_eq_one_call by (try rewrite HX; congruence).
  unfold Reference.kneighbors_one_call. rewrite HX. cbn [bind].
  unfold nn_kneighbors.
  destruct (_fit_method (_mod_p self)) as [name|]; [|congruence].
  rewrite Hrp. cbn [bind]. rewrite !col0_singletons. cbn [bind].
  rewrite Hip. cbn [attr bind]. rewrite Htake. cbn [bind].
  rewrite Hfn. cbn [bind]. rewrite !ranking_score_positive, !map_map.
  destruct Hmode as [-> | ->]; reflexivity.
Qed.

(** X19: a ranker built by [__init__] and fitted once, with at least one
    positive sample and no negative one, answers every valid query (one that
    [check_array] accepts, with a batch size of at least one, and that the
    positive index answers with a position among its rows): the call
    returns, every score is the positive-branch formula
    [(1 - D_p + 1) / 2], and the winning index is [ind_p], the global id of
    the nearest positive exemplar. *)
Theorem positive_only_query (ranking : string) (self0 self : t row)
  (X_fit : list row) (y : list Q) (X X' : list row) (batch_size : Z)
  (rp : list (Q * Z)) :
  __init__ row ranking = Ok self0 ->
  fit X_fit y self0 = (Ok tt, self) ->
  _index_n self = Some [] ->
  check_array X = Ok X' -> X' <> [] -> (1 <= batch_size)%Z ->
  mapM (nn_query1 (_fit_X (_mod_p self))) X' = Ok rp ->
  Forall (fun p => (0 <= snd p < Z.of_nat (length (_fit_X (_mod_p self))))%Z)
         rp ->
  exists positive_ids ind_p0,
    _index_p self = Some positive_ids /\ positive_ids <> [] /\
    Np.take positive_ids (map snd rp) = Ok ind_p0 /\
    kneighbors self X batch_size
    = Ok (map (fun p => let D_p := fst p / 2 in (1 - D_p + 1) / 2) rp,
          ind_p0,
          {| dist_p := map (fun p => fst p / 2) rp; ind_p := ind_p0;
             ind_n := None; dist_n := None |}).
Proof.
  intros Hinit Hfit Hneg HX Hne HB Hrp Hrange.
  apply init_Ok_inv in Hinit. destruct Hinit as [-> Hmode].
  apply fit_Ok_inv in Hfit.
  destruct Hfit as (Xf & pos & neg & X_p & _ & _ & Hpos & HXp & Hip & Hin
                    & Hmp & Hrk & Hmn).
  rewrite Hin in Hneg. injection Hneg as ->. simpl in Hrk, Hmn.
  rewrite Hmp in Hrp, Hrange. simpl in Hrp, Hrange.
  assert (Hrange' : Forall (fun j => (0 <= j < Z.of_nat (length pos))%Z)
                           (map snd rp)).
  { rewrite Forall_map. rewrite <- (take_length _ _ _ HXp). exact Hrange. }
  destruct (take_in_range pos (map snd rp) Hrange') as (ind_p0 & Htake).
  exists pos, ind_p0. repeat split; auto.
  apply (query_without_negative_index self X X' batch_size pos rp ind_p0);
    auto.
  - rewrite Hmn. reflexivity.
  - rewrite Hmp. discriminate.
  - rewrite Hrk. exact Hmode.
  - rewrite Hmp. exact Hrp.
Qed.


(** C4: on a training set without a positive label (no label exceeds 0.5,
    which for binary labels means that none is 1) [fit] raises the
    [ValueError] for an empty positive set and fits neither the positive
    nor the negative index. *)
Theorem fit_without_positive_label (X X' : list row) (y : list Q)
  (self : t row) :
  check_array X = Ok X' ->
  length y = length X' ->
  Forall (fun v => ~ v > 1 # 2) y ->
  fst (fit X y self)
  = Raise (ValueError
             "Training sets with no positive labels are not supported!") /\
  _mod_p (snd (fit X y self)) = _mod_p self /\
  _mod_n (snd (fit X y self)) = _mod_n self /\
  (forall ranking, __init__ row ranking = Ok self ->
     _fit_method (_mod_p (snd (fit X y self))) = None /\
     _fit_method (_mod_n (snd (fit X y self))) = None).
Proof.
  intros HX Hlen Hy.
  assert (Hmask : map (fun v => Np.gt v (1 # 2)) y
                  = repeat false (length (Np.arange (length X')))).
  { rewrite arange_length, <- Hlen. clear Hlen.
    induction Hy as [|v y Hv _ IH]; simpl; [reflexivity|].
    rewrite IH. f_equal. apply gt_false_iff. exact Hv. }
  assert (Hu : _unzip_relevant (Np.arange (length X')) y
               = Ok ([], Np.arange (length X'))).
  { unfold _unzip_relevant. rewrite Hmask, mask_select_none. simpl.
    rewrite map_repeat. simpl. rewrite mask_select_all. reflexivity. }
  assert (Hfit : fit X y self
                 = (Raise (ValueError
                     "Training sets with no positive labels are not supported!"),
                    set_index [] (Np.arange (length X')) self)).
  { unfold fit, bindA, lift, modify, raise, ret. rewrite HX, Hu. reflexivity. }
  rewrite Hfit. simpl. repeat split; auto.
  - apply init_Ok_inv in H. destruct H as [-> _]. reflexivity.
  - apply init_Ok_inv in H. destruct H as [-> _]. reflexivity.
Qed.

End QueryResult.

(** ** NearestCentroidRanker *)

Lemma mapM_In {A B : Type} (f : A -> result B) (l : list A) (r : list B)
  (x : A) :
  mapM f l = Ok r -> In x l -> exists y, f x = Ok y /\ In y r.
Proof.
  intros H Hx. apply In_nth_error in Hx. destruct Hx as (i & Hi).
  destruct (mapM_nth_error _ _ _ _ _ H Hi) as (y & Hy & Hr).
  exists y. split; [exact Hy|]. eapply nth_error_In; eauto.
Qed.

Lemma mapM_In_inv {A B : Type} (f : A -> result B) (l : list A) (r : list B)
  (y : B) :
  mapM f l = Ok r -> In y r -> exists x, In x l /\ f x = Ok y.
Proof.
  revert r. induction l as [|a l IH]; simpl; intros r H Hy.
  - injection H as <-. destruct Hy.
  - bind_inv H as b Hb. bind_inv H as r' Hr'. injection H as <-.
    destruct Hy as [<-|Hy]; [eauto|].
    destruct (IH _ Hr' Hy) as (x & Hx & Hfx). eauto.
Qed.

Lemma mapM_total {A B : Type} (f : A -> result B) (l : list A) :
  (forall x, In x l -> exists y, f x = Ok y) -> exists r, mapM f l = Ok r.
Proof.
  induction l as [|a l IH]; simpl; intros H; [eauto|].
  destruct (H a (or_introl eq_refl)) as (b & ->).
  destruct IH as (r & ->); [intros x Hx; apply H; auto|].
  simpl. eauto.
Qed.

Lemma fold_min_spec (l : list Q) (x : Q) :
  let m := fold_left (fun m v => if Qle_bool m v then m else v) l x in
  In m (x :: l) /\ Forall (fun v => (m <= v)%Q) (x :: l).
Proof.
  revert x. induction l as [|a l IH]; intros x; simpl.
  - split; [auto|]. constructor; [apply Qle_refl|constructor].
  - specialize (IH (if Qle_bool x a then x else a)). simpl in IH.
    destruct IH as [Hin Hall].
    apply Forall_cons_iff in Hall. destruct Hall as [Hm Hall].
    destruct (Qle_bool x a) eqn:Hxa.
    + apply Qle_bool_iff in Hxa. split.
      * destruct Hin as [Hin|Hin]; auto.
      * constructor; [exact Hm|]. constructor; [|exact Hall].
        eapply Qle_trans; eauto.
    + assert (Hax : (a < x)%Q).
      { apply Qnot_le_lt. intros Hle. apply Qle_bool_iff in Hle. congruence. }
      split.
      * destruct Hin as [Hin|Hin]; auto.
      * constructor; [|constructor; [exact Hm|exact Hall]].
        eapply Qle_trans; [exact Hm|]. apply Qlt_le_weak. exact Hax.
Qed.

Lemma np_min_spec (a : list Q) (m : Q) :
  Np.min a = Ok m -> In m a /\ Forall (fun v => (m <= v)%Q) a.
Proof.
  destruct a as [|x a]; simpl; [discriminate|].
  intros [= <-]. apply fold_min_spec.
Qed.

Section Centroid.

Context {row : Type} {sk : Sklearn row}.

Import NearestCentroidRanker.

(** C8: on a fitted centroid ranker [decision_function] returns one entry
    per (validated) query row, and entry [i] is the least of the distances
    from row [i] to the class centroids under the configured metric; before
    the centroids have been computed it raises [NotFittedError]. *)
Theorem decision_function_nearest_centroid (self : t row) (X : list row) :
  (centroids_ self = None ->
   decision_function self X = Raise NotFittedError) /\
  (forall centroids X' D,
     centroids_ self = Some centroids -> centroids <> [] ->
     check_array X = Ok X' ->
     pairwise_distances X' centroids (metric self) = Ok D ->
     exists out,
       decision_function self X = Ok out /\
       length out = length X' /\
       forall i x, nth_error X' i = Some x ->
         exists d,
           nth_error out i = Some d /\
           (exists c, In c centroids /\ distance (metric self) x c = Ok d) /\
           (forall c, In c centroids ->
              exists dc, distance (metric self) x c = Ok dc /\ (d <= dc)%Q)).
Proof.
  split.
  - intros Hnone. unfold decision_function, check_is_fitted.
    rewrite Hnone. reflexivity.
  - intros centroids X' D Hc Hne HX HD.
    unfold decision_function, check_is_fitted. rewrite Hc. cbn [bind].
    rewrite HX. cbn [bind]. rewrite HD. cbn [bind].
    unfold pairwise_distances in HD.
    assert (Hrows : forall dr, In dr D -> exists m, Np.min dr = Ok m).
    { intros dr Hdr. destruct (mapM_In_inv _ _ _ _ HD Hdr) as (x & _ & Hx).
      apply mapM_length in Hx.
      destruct dr as [|d dr]; [|simpl; eauto].
      destruct centroids; [congruence|discriminate]. }
    destruct (mapM_total Np.min D Hrows) as (out & Hout).
    exists out. split; [exact Hout|]. split.
    + rewrite (mapM_length _ _ _ Hout). apply (mapM_length _ _ _ HD).
    + intros i x Hx.
      destruct (mapM_nth_error _ _ _ _ _ HD Hx) as (dr & Hdr & HDi).
      destruct (mapM_nth_error _ _ _ _ _ Hout HDi) as (d & Hd & Hoi).
      exists d. split; [exact Hoi|].
      apply np_min_spec in Hd. destruct Hd as [Hin Hall]. split.
      * destruct (mapM_In_inv _ _ _ _ Hdr Hin) as (c & Hcin & Hcd). eauto.
      * intros c Hcin.
        destruct (mapM_In _ _ _ _ Hdr Hcin) as (dc & Hdc & Hdcin).
        exists dc. split; [exact Hdc|].
        rewrite Forall_forall in Hall. apply Hall. exact Hdcin.
Qed.

End Centroid.

(** ** _CategorizerWrapper.train *)

Section Train.

Context {row : Type} {be : _CategorizerWrapper.Backend row}.

Import _CategorizerWrapper.

(** C9: with [cv] not [None] and the method [NearestNeighbor] or
    [NearestCentroid], [train] raises [WrongParameter] and leaves the
    wrapper and the outside world as they were: no estimator is built or
    fitted and nothing is written. *)
Theorem train_rejects_cross_validation (w : world) (index : list Z)
  (y : list Q) (method : string) (cv : option string) :
  cv <> None ->
  method = "NearestNeighbor"%string \/ method = "NearestCentroid"%string ->
  train index y method cv w
  = (Raise (WrongParameter "Cross validation (cv={}) not supported with {}"),
     w).
Proof.
  intros Hcv Hm. destruct cv as [c|]; [|congruence].
  destruct Hm as [-> | ->]; reflexivity.
Qed.

End Train.

(** * Concrete runs on one-feature matrices *)

Section Runs.

Import NearestNeighborRanker.
Import OneFeature.

Local Open Scope Q_scope.

Example fit_run :
  fit X_train y_train (fresh "supervised") = (Ok tt, ranker).
Proof. reflexivity. Qed.

Example kneighbors_run :
  kneighbors ranker X_query 2 = Ok (scores, winners, diagnostics).
Proof. reflexivity. Qed.

(** The tie-break on the last row of [X_query]: both halved distances are
    3/8, the score is that of the negative branch, the winning index is
    that of the positive exemplar. *)
Example tie_break_run :
  exists D_p D_n,
    nth_error (dist_p diagnostics) 4 = Some D_p /\
    option_map (fun d => nth_error d 4) (dist_n diagnostics)
    = Some (Some D_n) /\
    D_p == D_n /\
    nth_error scores 4 = Some ((-1 - (1 - D_n)) / 2) /\
    nth_error winners 4 = nth_error (ind_p diagnostics) 4.
Proof. exists (6 # 16), (3 # 8). repeat split. Qed.

Lemma supervised_fusion_rule_witness :
  exists D_n I_n,
    dist_n diagnostics = Some D_n /\ ind_n diagnostics = Some I_n /\
    length scores = length (dist_p diagnostics).
Proof.
  destruct (supervised_fusion_rule ranker X_query 2 scores winners diagnostics)
    as (D_n & I_n & H1 & H2 & H3 & _).
  - reflexivity.
  - simpl. discriminate.
  - reflexivity.
  - exists D_n, I_n. auto.
Defined.

(** C2, as stated, fails: with one feature, a positive exemplar at 1 and
    the query row 10 (which is not L2-normalized) are at Euclidean distance
    9, so [D_p = 9/2] and the score is -5/4. *)
Lemma score_range_counterexample :
  exists score ind md,
    query "supervised" [1] [1] [10] 1 = Ok (score, ind, md) /\
    dist_p md = [9 # 2] /\
    score = [(1 - (9 # 2) + 1) / 2] /\
    ~ Forall (fun s => -1 <= s <= 1) score.
Proof.
  exists [-5 # 4], [0%Z],
    {| dist_p := [9 # 2]; ind_p := [0%Z]; ind_n := None; dist_n := None |}.
  split; [reflexivity|]. split; [reflexivity|]. split; [reflexivity|].
  intros H. apply Forall_inv in H. destruct H as [Hlo _].
  revert Hlo. unfold Qle. simpl. lia.
Qed.

Lemma score_range_on_normalized_distances_witness :
  Forall (fun s => -1 <= s <= 1) scores.
Proof.
  apply (score_range_on_normalized_distances ranker X_query 2
           scores winners diagnostics).
  - reflexivity.
  - simpl. repeat (apply Forall_cons; [unfold Qle; simpl; lia|]).
    apply Forall_nil.
  - simpl. intros D_n [= <-].
    repeat (apply Forall_cons; [unfold Qle; simpl; lia|]).
    apply Forall_nil.
Defined.

Lemma kneighbors_batch_size_invariant_witness :
  kneighbors ranker X_query 2 = kneighbors ranker X_query 5.
Proof.
  apply (kneighbors_batch_size_invariant ranker X_query 2 5); lia.
Defined.

Lemma fit_without_positive_label_witness :
  fst (fit X_train [0; 0; 0] (fresh "supervised"))
  = Raise (ValueError
             "Training sets with no positive labels are not supported!").
Proof.
  apply (fit_without_positive_label X_train X_train [0; 0; 0]
           (fresh "supervised")).
  - reflexivity.
  - reflexivity.
  - repeat (apply Forall_cons; [intros H; discriminate H|]).
    apply Forall_nil.
Defined.

Lemma positive_only_query_witness :
  exists answer, kneighbors positives_only [9 # 10; 0] 1 = Ok answer.
Proof.
  destruct (positive_only_query "supervised" (fresh "supervised")
              positives_only [1; 1 # 2] [1; 1] [9 # 10; 0] [9 # 10; 0] 1
              [(1 # 10, 0%Z); (1 # 2, 1%Z)])
    as (pos & ind & _ & _ & _ & Hk).
  - reflexivity.
  - reflexivity.
  - reflexivity.
  - reflexivity.
  - discriminate.
  - lia.
  - reflexivity.
  - simpl. repeat (apply Forall_cons; [simpl; lia|]). apply Forall_nil.
  - eexists. exact Hk.
Defined.

(** C5: the claim fails on a ranker that was fitted before.  [fit] leaves
    [_mod_n] as it is when the training set has no negative sample (its
    branch [else: pass]).  After a first fit with the negative exemplar -1, a
    second fit on the positive exemplars 1 and 1/2 alone returns, the
    negative index still holds the old exemplar while [_index_n] is empty,
    and the query raises [IndexError] where the negative positions are
    mapped to row indices.  An object fitted on the same two positive
    exemplars only answers the same query. *)
Theorem positive_only_refit_raises :
  exists self0 self1 self2,
    __init__ Q "supervised" = Ok self0 /\
    fit X_train y_train self0 = (Ok tt, self1) /\
    fit [1; 1 # 2] [1; 1] self1 = (Ok tt, self2) /\
    _index_p self2 = Some [0; 1]%Z /\
    _index_n self2 = Some [] /\
    _mod_n self2 = nn_fit [-1] /\
    kneighbors self2 [9 # 10; 0] 1 = Raise IndexError /\
    exists answer,
      query "supervised" [1; 1 # 2] [1; 1] [9 # 10; 0] 1 = Ok answer.
Proof.
  exists (fresh "supervised"), ranker,
    {| _mod_p := nn_fit [1; 1 # 2]; _mod_n := nn_fit [-1];
       ranking_ := "supervised"; _index_p := Some [0; 1]%Z;
       _index_n := Some [] |}.
  repeat (split; [reflexivity|]).
  eexists. reflexivity.
Qed.



Lemma fit_index_partition_witness :
  exists positive_ids negative_ids,
    _unzip_relevant (Np.arange (length X_train)) y_train
    = Ok (positive_ids, negative_ids) /\
    Permutation (positive_ids ++ negative_ids) (Np.arange (length X_train)).
Proof.
  destruct (fit_index_partition X_train X_train y_train (fresh "supervised"))
    as (pos & neg & Hu & _ & _ & _ & _ & _ & _ & _ & _ & Hperm).
  - reflexivity.
  - reflexivity.
  - apply Forall_cons; [right; reflexivity|].
    apply Forall_cons; [left; reflexivity|].
    apply Forall_cons; [right; reflexivity|].
    apply Forall_nil.
  - exists pos, neg. auto.
Defined.

Example decision_function_run :
  NearestCentroidRanker.decision_function
    {| NearestCentroidRanker.metric := "euclidean";
       NearestCentroidRanker.centroids_ := Some [3 # 4; -1] |} X_query
  = Ok [1 # 4; 3 # 4; 0; 6 # 40; 3 # 4].
Proof. reflexivity. Qed.

Lemma train_rejects_cross_validation_witness :
  _CategorizerWrapper.train [0; 1; 2]%Z y_train "NearestNeighbor"
    (Some "fast"%string) (wrapper, [])
  = (Raise (WrongParameter "Cross validation (cv={}) not supported with {}"),
     (wrapper, [])).
Proof.
  apply (train_rejects_cross_validation (wrapper, []) [0; 1; 2]%Z y_train
           "NearestNeighbor" (Some "fast"%string)).
  - discriminate.
  - left. reflexivity.
Defined.

End Runs.

(** * Further properties of the code *)

(** ** [_chunk_kneighbors] on an arbitrary callable *)

Section ChunkedRun.

Context {row D I : Type}.

Lemma batch_count_ceil (n b : nat) :
  (1 <= b)%nat ->
  Z.to_nat (Z.of_nat n / Z.of_nat b
            + (if Z.of_nat n mod Z.of_nat b =? 0 then 0 else 1))
  = Chunking.ceil_div n b.
Proof.
  intros Hb. unfold Chunking.ceil_div.
  pose proof (Z.div_mod (Z.of_nat n) (Z.of_nat b) ltac:(lia)) as Hdm.
  pose proof (Z.mod_pos_bound (Z.of_nat n) (Z.of_nat b) ltac:(lia)) as Hmod.
  pose proof (Z.div_pos (Z.of_nat n) (Z.of_nat b) ltac:(lia) ltac:(lia)) as Hq.
  set (q := Z.of_nat n / Z.of_nat b) in *.
  set (r := Z.of_nat n mod Z.of_nat b) in *.
  destruct (r =? 0) eqn:Hr.
  - apply Z.eqb_eq in Hr.
    apply (Nat.div_unique _ _ _ (b - 1)); [lia|nia].
  - apply Z.eqb_neq in Hr.
    apply (Nat.div_unique _ _ _ (Z.to_nat r - 1)); [lia|nia].
Qed.

Lemma chunk_loop_blocks (func : list row -> result (list D * list I))
  (X : list row) (batch_size : Z) (m k0 : nat)
  (ind_arr : list (list I)) (dist_arr : list (list D)) :
  1 <= batch_size ->
  chunk_loop func X batch_size (Z.of_nat (length X))
             (map Z.of_nat (seq k0 m)) ind_arr dist_arr
  = (rs <- mapM func (map (Chunking.block X (Z.to_nat batch_size)) (seq k0 m)) ;;
     Ok (ind_arr ++ map snd rs, dist_arr ++ map fst rs)).
Proof.
  intros HB. revert k0 ind_arr dist_arr.
  induction m as [|m IH]; intros k0 ind_arr dist_arr.
  - simpl. rewrite !app_nil_r. reflexivity.
  - cbn [seq map chunk_loop mapM].
    rewrite slice_block by exact HB. fold (Chunking.block X (Z.to_nat batch_size) k0).
    destruct (func (Chunking.block X (Z.to_nat batch_size) k0)) as [[d i]|e];
      [|reflexivity].
    cbn [bind]. rewrite IH.
    destruct (mapM func _) as [rs|e]; [|reflexivity].
    cbn [bind map fst snd]. rewrite <- !app_assoc. reflexivity.
Qed.

Lemma concat_blocks_from (X : list row) (b m k0 : nat) :
  concat (map (Chunking.block X b) (seq k0 m))
  = firstn (m * b) (skipn (k0 * b) X).
Proof.
  revert k0. induction m as [|m IH]; intros k0; simpl; [reflexivity|].
  rewrite IH. unfold Chunking.block.
  replace (skipn (S k0 * b) X) with (skipn b (skipn (k0 * b) X))
    by (rewrite skipn_skipn; reflexivity).
  generalize (skipn (k0 * b) X) as S0. intros S0.
  rewrite <- (firstn_skipn b (firstn (b + m * b) S0)).
  rewrite firstn_firstn, Nat.min_l by lia. f_equal.
  apply firstn_skipn_comm.
Qed.

Lemma ceil_div_bounds (n b : nat) :
  (1 <= b)%nat ->
  (n <= Chunking.ceil_div n b * b)%nat /\
  (forall k, (k < Chunking.ceil_div n b)%nat -> (k * b < n)%nat).
Proof.
  intros Hb. unfold Chunking.ceil_div.
  pose proof (Nat.div_mod_eq (n + b - 1) b) as Hdm.
  pose proof (Nat.mod_upper_bound (n + b - 1) b ltac:(lia)) as Hmod.
  split; [nia|]. intros k Hk. nia.
Qed.

(** X1: with a batch size of at least one and a non-empty matrix,
    [_chunk_kneighbors] calls the callable, whatever it is, on the
    consecutive blocks of [batch_size] rows in order, stops at the first
    call that raises, and concatenates the distance parts and the index
    parts of the answers.  The blocks cover the matrix exactly, there are
    [ceil(n / batch_size)] of them, none is empty, and all but the last
    hold exactly [batch_size] rows. *)
Theorem chunk_kneighbors_blockwise
  (func : list row -> result (list D * list I)) (X : list row)
  (batch_size : Z) :
  1 <= batch_size -> X <> [] ->
  let b := Z.to_nat batch_size in
  let bs := Chunking.blocks X b in
  _chunk_kneighbors func X batch_size
  = (rs <- mapM func bs ;; Ok (concat (map fst rs), concat (map snd rs))) /\
  concat bs = X /\
  length bs = Chunking.ceil_div (length X) b /\
  Forall (fun blk => (1 <= length blk <= b)%nat) bs /\
  (forall k, (S k < length bs)%nat -> length (nth k bs []) = b).
Proof.
  intros HB Hne b bs.
  assert (Hb : (1 <= b)%nat) by (unfold b; lia).
  destruct (ceil_div_bounds (length X) b Hb) as [Hcover Hin].
  assert (Hlen : length bs = Chunking.ceil_div (length X) b).
  { unfold bs, Chunking.blocks. rewrite length_map, length_seq. reflexivity. }
  assert (Hpos : (1 <= Chunking.ceil_div (length X) b)%nat).
  { destruct X; [congruence|]. simpl length in Hcover.
    destruct (Chunking.ceil_div _ b); [simpl in Hcover; lia|lia]. }
  split; [|split; [|split; [exact Hlen|split]]].
  - unfold _chunk_kneighbors, Py.floordiv, Py.mod_.
    replace (batch_size =? 0) with false by (symmetry; apply Z.eqb_neq; lia).
    cbn [bind]. unfold Py.range.
    assert (Hnb : Z.to_nat (Z.of_nat (length X) / batch_size
                            + (if Z.of_nat (length X) mod batch_size =? 0
                               then 0 else 1))
                  = Chunking.ceil_div (length X) b).
    { rewrite <- (batch_count_ceil (length X) b Hb).
      unfold b. rewrite Z2Nat.id by lia. reflexivity. }
    rewrite Hnb. rewrite chunk_loop_blocks by exact HB.
    fold b. fold (Chunking.blocks X b). fold bs.
    destruct (mapM func bs) as [rs|e] eqn:Hrs; [|reflexivity].
    cbn [bind app]. apply mapM_length in Hrs.
    destruct rs as [|r rs]; [simpl in Hrs; lia|]. reflexivity.
  - unfold bs, Chunking.blocks. rewrite concat_blocks_from. simpl.
    apply firstn_all2. exact Hcover.
  - unfold bs, Chunking.blocks. rewrite Forall_map, Forall_forall.
    intros k Hk. apply in_seq in Hk. unfold Chunking.block.
    rewrite length_firstn, length_skipn.
    specialize (Hin k ltac:(lia)). lia.
  - intros k Hk. unfold bs, Chunking.blocks in *.
    rewrite length_map, length_seq in Hk.
    rewrite (nth_indep _ [] (Chunking.block X b 0))
      by (rewrite length_map, length_seq; lia).
    rewrite (map_nth (Chunking.block X b)), seq_nth by lia.
    unfold Chunking.block. rewrite length_firstn, length_skipn.
    specialize (Hin (S k) Hk). simpl in *. lia.
Qed.

(** X2: [_chunk_kneighbors] never calls the callable when the batch size is
    not positive or the matrix is empty: a zero batch size raises
    [ZeroDivisionError], a negative one or an empty matrix the
    [ValueError] of [np.concatenate] on an empty list. *)
Theorem chunk_kneighbors_degenerate
  (func : list row -> result (list D * list I)) (X : list row)
  (batch_size : Z) :
  (batch_size = 0 ->
   _chunk_kneighbors func X batch_size = Raise ZeroDivisionError) /\
  (batch_size < 0 \/ (batch_size <> 0 /\ X = []) ->
   _chunk_kneighbors func X batch_size
   = Raise (ValueError "need at least one array to concatenate")).
Proof.
  split.
  - intros ->. reflexivity.
  - intros Hcase.
    assert (Hnz : batch_size <> 0) by (destruct Hcase as [?|[? _]]; lia).
    unfold _chunk_kneighbors, Py.floordiv, Py.mod_.
    replace (batch_size =? 0) with false by (symmetry; apply Z.eqb_neq; lia).
    cbn [bind]. set (n := Z.of_nat (length X)).
    assert (Hnb : n / batch_size + (if n mod batch_size =? 0 then 0 else 1) <= 0).
    { destruct (Z.lt_trichotomy batch_size 0) as [Hneg|[?|Hpos]]; [|lia|].
      - pose proof (Z.div_mod n batch_size ltac:(lia)) as Hdm.
        pose proof (Z.mod_neg_bound n batch_size Hneg) as Hmod.
        assert (0 <= n) by (unfold n; lia).
        destruct (n mod batch_size =? 0) eqn:Hm.
        + apply Z.eqb_eq in Hm. nia.
        + apply Z.eqb_neq in Hm. nia.
      - destruct Hcase as [?|[_ ->]]; [lia|]. unfold n. simpl length.
        simpl Z.of_nat. rewrite Z.div_0_l, Z.mod_0_l by lia. simpl. lia. }
    unfold Py.range. replace (Z.to_nat _) with 0%nat by lia. reflexivity.
Qed.

End ChunkedRun.

(** ** Splitting ids by label *)

Lemma mask_select_Ok_length {A : Type} (a : list A) (m : list bool)
  (r : list A) :
  Np.mask_select a m = Ok r -> length a = length m.
Proof.
  revert m r. induction a as [|x a IH]; intros [|b m] r H; simpl in H;
    try discriminate; [reflexivity|].
  bind_inv H as r' Hr'. simpl. f_equal. eauto.
Qed.

Lemma mask_select_filter {A : Type} (f : Q -> bool) (a : list A) (y : list Q) :
  length a = length y ->
  Np.mask_select a (map f y)
  = Ok (map fst (filter (fun p => f (snd p)) (combine a y))).
Proof.
  revert y. induction a as [|x a IH]; intros [|v y] Hlen; simpl in *;
    try discriminate; [reflexivity|].
  injection Hlen as Hlen. rewrite (IH y Hlen). simpl.
  destruct (f v); reflexivity.
Qed.

(** X3: for ids and labels of the same length, [_unzip_relevant] splits the
    ids by the threshold [label > 0.5], whatever the labels are: the
    relevant ids are those whose label exceeds 0.5, the others (a label of
    exactly 0.5 included) are non-relevant, both in their original order,
    and no id is lost or repeated. *)
Theorem unzip_relevant_threshold (idx_id : list Z) (y : list Q) :
  length idx_id = length y ->
  let relevant :=
    map fst (filter (fun p => Np.gt (snd p) (1 # 2)) (combine idx_id y)) in
  let non_relevant :=
    map fst (filter (fun p => negb (Np.gt (snd p) (1 # 2)))
                    (combine idx_id y)) in
  _unzip_relevant idx_id y = Ok (relevant, non_relevant) /\
  Permutation (relevant ++ non_relevant) idx_id /\
  (length relevant + length non_relevant = length idx_id)%nat.
Proof.
  intros Hlen relevant non_relevant.
  assert (Hu : _unzip_relevant idx_id y = Ok (relevant, non_relevant)).
  { unfold _unzip_relevant.
    rewrite (mask_select_filter (fun v => Np.gt v (1 # 2))) by exact Hlen.
    cbn [bind]. rewrite map_map.
    rewrite (mask_select_filter (fun v => negb (Np.gt v (1 # 2))))
      by exact Hlen.
    reflexivity. }
  split; [exact Hu|].
  destruct (unzip_relevant_structure _ _ _ _ Hu) as [Hperm _].
  split; [exact Hperm|].
  rewrite <- length_app. apply Permutation_length. exact Hperm.
Qed.

Lemma unzip_relevant_threshold_witness :
  _unzip_relevant [7; 3; 9] [1 # 2; 2; 0]%Q = Ok ([3], [7; 9]).
Proof.
  apply (unzip_relevant_threshold [7; 3; 9] [1 # 2; 2; 0]%Q). reflexivity.
Defined.

(** Membership in the two index arrays that [fit] computes, for arbitrary
    labels. *)
Lemma unzip_relevant_arange_threshold (n : nat) (y : list Q)
  (pos neg : list Z) :
  _unzip_relevant (Np.arange n) y = Ok (pos, neg) ->
  length y = n /\
  (forall i, In i pos <->
     exists v, 0 <= i /\ nth_error y (Z.to_nat i) = Some v /\ (v > 1 # 2)%Q) /\
  (forall i, In i neg <->
     exists v, 0 <= i /\ nth_error y (Z.to_nat i) = Some v /\ ~ (v > 1 # 2)%Q).
Proof.
  intros H. unfold _unzip_relevant in H.
  bind_inv H as p Hp. bind_inv H as q Hq. injection H as <- <-.
  assert (Hlen : length y = n).
  { apply mask_select_Ok_length in Hp.
    rewrite arange_length, length_map in Hp. auto. }
  split; [exact Hlen|]. split; intros i.
  - rewrite (mask_select_In _ _ _ Hp). split.
    + intros (k & Hk & Hm). apply nth_error_arange in Hk. destruct Hk as [Hk ->].
      rewrite nth_error_map in Hm.
      destruct (nth_error y k) as [w|] eqn:Hw; [|discriminate].
      injection Hm as Hm. exists w. rewrite Nat2Z.id.
      repeat split; [lia|exact Hw|]. apply gt_true_iff. exact Hm.
    + intros (w & Hi & Hw & Hgt). exists (Z.to_nat i).
      assert (Hlt : (Z.to_nat i < n)%nat).
      { rewrite <- Hlen. apply nth_error_Some. congruence. }
      split.
      * apply nth_error_arange. split; [exact Hlt|lia].
      * rewrite nth_error_map, Hw. simpl. f_equal. apply gt_true_iff. exact Hgt.
  - rewrite (mask_select_In _ _ _ Hq). split.
    + intros (k & Hk & Hm). apply nth_error_arange in Hk. destruct Hk as [Hk ->].
      rewrite !nth_error_map in Hm.
      destruct (nth_error y k) as [w|] eqn:Hw; [|discriminate].
      injection Hm as Hm. apply negb_true_iff in Hm.
      exists w. rewrite Nat2Z.id.
      repeat split; [lia|exact Hw|]. apply gt_false_iff. exact Hm.
    + intros (w & Hi & Hw & Hgt). exists (Z.to_nat i).
      assert (Hlt : (Z.to_nat i < n)%nat).
      { rewrite <- Hlen. apply nth_error_Some. congruence. }
      split.
      * apply nth_error_arange. split; [exact Hlt|lia].
      * rewrite !nth_error_map, Hw. simpl. f_equal. apply negb_true_iff.
        apply gt_false_iff. exact Hgt.
Qed.

(** ** More on [fit] and [kneighbors] *)

Lemma getitem_In {A : Type} (a : list A) (i : Z) (x : A) :
  Np.getitem a i = Ok x -> In x a.
Proof.
  unfold Np.getitem.
  destruct (_ && _); [|discriminate].
  destruct (nth_error a _) as [x'|] eqn:Hx; [|discriminate].
  intros [= <-]. eapply nth_error_In; eauto.
Qed.

Lemma take_incl {A : Type} (a : list A) (idx : list Z) (r : list A) :
  Np.take a idx = Ok r -> incl r a.
Proof.
  intros H x Hx. destruct (mapM_In_inv _ _ _ _ H Hx) as (i & _ & Hi).
  eapply getitem_In; eauto.
Qed.

Lemma getitem_middle {A : Type} (pre : list A) (x : A) (X : list A) :
  Np.getitem (pre ++ x :: X) (Z.of_nat (length pre)) = Ok x.
Proof.
  unfold Np.getitem.
  replace (Z.of_nat (length pre) <? 0) with false
    by (symmetry; apply Z.ltb_ge; lia).
  replace ((0 <=? Z.of_nat (length pre))
           && (Z.of_nat (length pre) <? Z.of_nat (length (pre ++ x :: X))))
    with true
    by (symmetry; apply andb_true_iff; split;
        [apply Z.leb_le; lia
        |apply Z.ltb_lt; rewrite length_app; simpl; lia]).
  rewrite Nat2Z.id, nth_error_app2, Nat.sub_diag by lia. reflexivity.
Qed.

(** Selecting rows through the masked row numbers is masking the rows. *)
Lemma take_masked_arange {A : Type} (X pre : list A) (m : list bool)
  (pos : list Z) :
  Np.mask_select (map Z.of_nat (seq (length pre) (length X))) m = Ok pos ->
  Np.take (pre ++ X) pos = Np.mask_select X m.
Proof.
  revert pre m pos. induction X as [|x X IH]; intros pre [|b m] pos H;
    simpl in H; try discriminate.
  - injection H as <-. reflexivity.
  - bind_inv H as r Hr. injection H as <-.
    specialize (IH (pre ++ [x]) m r).
    rewrite length_app, Nat.add_1_r, <- app_assoc in IH. simpl in IH.
    specialize (IH Hr). cbn [Np.mask_select]. rewrite <- IH.
    destruct b.
    + unfold Np.take. cbn [mapM]. rewrite getitem_middle. reflexivity.
    + destruct (Np.take (pre ++ x :: X) r); reflexivity.
Qed.

Section FitAndQuery.

Context {row : Type} {sk : Sklearn row}.

Import NearestNeighborRanker.

Local Open Scope Q_scope.

(** X4: on a validated training set with one label per row and at least
    one label above 0.5, [fit] returns; the positive index is then fitted
    on exactly the rows whose label exceeds 0.5, in their order, the
    negative index on exactly the other rows when there are any, and it is
    left as it was when there are none; the ranking mode is unchanged. *)
Theorem fit_indexes_labelled_rows (X X' : list row) (y : list Q)
  (self : t row) :
  check_array X = Ok X' ->
  length y = length X' ->
  Exists (fun v => v > 1 # 2) y ->
  let X_p := map fst (filter (fun p => Np.gt (snd p) (1 # 2))
                             (combine X' y)) in
  let X_n := map fst (filter (fun p => negb (Np.gt (snd p) (1 # 2)))
                             (combine X' y)) in
  exists self',
    fit X y self = (Ok tt, self') /\
    _mod_p self' = nn_fit X_p /\ X_p <> [] /\
    match X_n with
    | [] => _mod_n self' = _mod_n self
    | _ => _mod_n self' = nn_fit X_n
    end /\
    ranking_ self' = ranking_ self.
Proof.
  intros HX Hlen Hex X_p X_n.
  destruct (unzip_relevant_total (Np.arange (length X')) y)
    as (pos & neg & Hu); [rewrite arange_length; auto|].
  pose proof Hu as Hsplit. unfold _unzip_relevant in Hsplit.
  bind_inv Hsplit as p Hp. bind_inv Hsplit as q Hq. injection Hsplit as -> ->.
  assert (HXp : Np.take X' pos = Ok X_p).
  { pose proof (take_masked_arange X' [] _ pos Hp) as Ht.
    simpl in Ht. rewrite Ht. unfold X_p.
    apply (mask_select_filter (fun v => Np.gt v (1 # 2))). auto. }
  assert (HXn : Np.take X' neg = Ok X_n).
  { pose proof (take_masked_arange X' [] _ neg Hq) as Ht.
    simpl in Ht. rewrite Ht, map_map. unfold X_n.
    apply (mask_select_filter (fun v => negb (Np.gt v (1 # 2)))). auto. }
  assert (Hpos : pos <> []).
  { apply Exists_exists in Hex. destruct Hex as (v & Hv & Hgt).
    apply In_nth_error in Hv. destruct Hv as (k & Hk).
    assert (Hin : In (Z.of_nat k) pos).
    { apply (mask_select_In _ _ _ Hp). exists k. split.
      - apply nth_error_arange. split; [|reflexivity].
        rewrite <- Hlen. apply nth_error_Some. congruence.
      - rewrite nth_error_map, Hk. simpl. f_equal.
        apply gt_true_iff. exact Hgt. }
    intros ->. destruct Hin. }
  assert (HXp_ne : X_p <> []).
  { intros E. apply take_length in HXp. rewrite E in HXp.
    destruct pos; [congruence|discriminate]. }
  assert (Hneg : neg = [] <-> X_n = []).
  { apply take_length in HXn. split; intros E; rewrite E in HXn.
    - destruct X_n; [reflexivity|discriminate].
    - destruct neg; [reflexivity|discriminate]. }
  unfold fit, bindA, lift, modify, raise, ret. rewrite HX, Hu.
  destruct pos as [|p0 pos]; [congruence|]. cbn [length Nat.ltb Nat.leb].
  rewrite HXp.
  destruct neg as [|n0 neg]; cbn [length Nat.ltb Nat.leb].
  - rewrite (proj1 Hneg eq_refl). eexists. simpl. repeat split; auto.
  - rewrite HXn. eexists. simpl. repeat split; auto.
    destruct X_n; [|reflexivity].
    destruct Hneg as [_ Hneg]. discriminate (Hneg eq_refl).
Qed.

(** X5: after a successful [fit] on labels [y], every index that a
    successful query returns refers to a training row: the entries of
    [ind_p] are rows whose label exceeds 0.5, the entries of [ind_n] are
    rows whose label does not, and every winning index lies in
    [[0, len(y))]. *)
Theorem winning_index_is_training_row (self0 self : t row)
  (X_fit : list row) (y : list Q) (X : list row) (batch_size : Z)
  (score : list Q) (ind : list Z) (md : metadata) :
  fit X_fit y self0 = (Ok tt, self) ->
  kneighbors self X batch_size = Ok (score, ind, md) ->
  Forall (fun i => exists v, (0 <= i)%Z /\
                   nth_error y (Z.to_nat i) = Some v /\ v > 1 # 2)
         (ind_p md) /\
  (forall I_n, ind_n md = Some I_n ->
     Forall (fun i => exists v, (0 <= i)%Z /\
                      nth_error y (Z.to_nat i) = Some v /\ ~ v > 1 # 2)
            I_n) /\
  Forall (fun i => (0 <= i < Z.of_nat (length y))%Z) ind.
Proof.
  intros Hfit H. apply fit_Ok_inv in Hfit.
  destruct Hfit as (Xf & pos & neg & X_p & _ & Hu & _ & _ & Hip & Hin & _).
  destruct (unzip_relevant_arange_threshold _ _ _ _ Hu) as (Hlen & Hpos & Hneg).
  apply kneighbors_Ok_inv, one_call_Ok_inv in H.
  destruct H as (X' & _ & Hp & Hn).
  assert (Hrange : forall i v, (0 <= i)%Z -> nth_error y (Z.to_nat i) = Some v ->
                               (0 <= i < Z.of_nat (length y))%Z).
  { intros i v Hi Hv. split; [exact Hi|].
    assert ((Z.to_nat i < length y)%nat) by (apply nth_error_Some; congruence).
    lia. }
  assert (HP : Forall (fun i => exists v, (0 <= i)%Z /\
                         nth_error y (Z.to_nat i) = Some v /\ v > 1 # 2)
                      (ind_p md)).
  { destruct Hp as (r & idx & _ & _ & Hidx & _ & Htake).
    rewrite Hip in Hidx. injection Hidx as <-.
    rewrite Forall_forall. intros i Hi. apply Hpos.
    eapply take_incl; eauto. }
  assert (HPr : Forall (fun i => (0 <= i < Z.of_nat (length y))%Z) (ind_p md)).
  { eapply Forall_impl; [|exact HP]. intros i (v & Hi & Hv & _). eauto. }
  split; [exact HP|].
  destruct (_fit_method (_mod_n self)) as [name|].
  - destruct Hn as (D_n & I_n & _ & HIn & Hneg' & Hrule).
    assert (HN : Forall (fun i => exists v, (0 <= i)%Z /\
                           nth_error y (Z.to_nat i) = Some v /\ ~ v > 1 # 2)
                        I_n).
    { destruct Hneg' as (r & idx & _ & _ & Hidx & _ & Htake).
      rewrite Hin in Hidx. injection Hidx as <-.
      rewrite Forall_forall. intros i Hi. apply Hneg.
      eapply take_incl; eauto. }
    split.
    + intros I_n' HI. rewrite HIn in HI. injection HI as <-. exact HN.
    + destruct (String.eqb (ranking_ self) "supervised").
      * destruct Hrule as [_ ->]. rewrite Forall_forall in *.
        intros i Hi. apply in_map_iff in Hi.
        destruct Hi as ([[dp dn] [ip inn]] & <- & Hi).
        apply in_combine_r in Hi.
        unfold Reference.pick. simpl. destruct (Np.le dp dn).
        -- apply HPr. eapply in_combine_l; eauto.
        -- destruct (HN inn (in_combine_r _ _ _ _ Hi)) as (v & ? & ? & _).
           eauto.
      * destruct Hrule as [-> _]. exact HPr.
  - destruct Hn as (_ & HIn & -> & _). split; [|exact HPr].
    intros I_n HI. rewrite HIn in HI. discriminate.
Qed.

End FitAndQuery.

Section RankerEdges.

Context {row : Type} {sk : Sklearn row}.

Import NearestNeighborRanker.

Local Open Scope Q_scope.

(** X6: [fit] does not reset the negative index.  When an object whose
    negative index is fitted is fitted again on a training set without
    negative labels, the negative index keeps its old rows while
    [_index_n] becomes empty, and a query that both indices answer raises
    [IndexError] at the remapping of the negative positions. *)
Theorem refit_without_negatives_keeps_negative_index (self0 self : t row)
  (X_fit : list row) (y : list Q) (X X' : list row) (batch_size : Z)
  (rp rn : list (Q * Z)) (index_p ind_p0 : list Z) :
  _fit_method (_mod_n self0) <> None ->
  fit X_fit y self0 = (Ok tt, self) ->
  _index_n self = Some [] ->
  _mod_n self = _mod_n self0 /\
  (check_array X = Ok X' -> X' <> [] -> (1 <= batch_size)%Z ->
   mapM (nn_query1 (_fit_X (_mod_p self))) X' = Ok rp ->
   _index_p self = Some index_p ->
   Np.take index_p (map snd rp) = Ok ind_p0 ->
   mapM (nn_query1 (_fit_X (_mod_n self))) X' = Ok rn ->
   kneighbors self X batch_size = Raise IndexError).
Proof.
  intros Hold Hfit Hneg. apply fit_Ok_inv in Hfit.
  destruct Hfit as (Xf & pos & neg & X_p & _ & _ & _ & _ & _ & Hin
                    & Hmp & _ & Hmn).
  rewrite Hin in Hneg. injection Hneg as ->. simpl in Hmn.
  split; [exact Hmn|].
  intros HX Hne HB Hrp Hip Htake Hrn.
  rewrite kneighbors_eq_one_call by (try rewrite HX; congruence).
  unfold Reference.kneighbors_one_call. rewrite HX. cbn [bind].
  unfold nn_kneighbors at 1. rewrite Hmp in *. cbn [_fit_method nn_fit].
  cbn [_fit_X nn_fit] in Hrp. cbn [_fit_X nn_fit]. rewrite Hrp. cbn [bind].
  rewrite !col0_singletons. cbn [bind]. rewrite Hip. cbn [attr bind].
  rewrite Htake. cbn [bind].
  unfold nn_kneighbors. rewrite Hmn in *.
  destruct (_fit_method (_mod_n self0)) as [name|]; [|congruence].
  rewrite Hrn. cbn [bind]. rewrite !col0_singletons. cbn [bind].
  rewrite Hin. cbn [attr bind].
  apply mapM_length in Hrn.
  destruct rn as [|[d j] rn]; [destruct X'; [congruence|discriminate]|].
  cbn [map snd Np.take mapM]. unfold Np.getitem. cbn [length Z.of_nat].
  destruct (j <? 0)%Z eqn:Hj.
  - replace ((0 <=? j + 0)%Z && (j + 0 <? 0)%Z) with false; [reflexivity|].
    symmetry. apply andb_false_iff. left. apply Z.leb_gt.
    apply Z.ltb_lt in Hj. lia.
  - replace ((0 <=? j)%Z && (j <? 0)%Z) with false; [reflexivity|].
    symmetry. apply andb_false_iff. right. exact Hj.
Qed.

(** X7: the constructor accepts exactly the two ranking modes, and the
    ranker it returns raises [NotFittedError] on every non-empty validated
    query with a batch size of at least one until [fit] has run. *)
Theorem query_before_fit (ranking : string) :
  (ranking <> "supervised"%string -> ranking <> "unsupervised"%string ->
   __init__ row ranking = Raise (ValueError "")) /\
  (forall self X X' batch_size,
     __init__ row ranking = Ok self ->
     check_array X = Ok X' -> X' <> [] -> (1 <= batch_size)%Z ->
     kneighbors self X batch_size = Raise NotFittedError) /\
  (ranking = "supervised"%string \/ ranking = "unsupervised"%string ->
   exists self, __init__ row ranking = Ok self).
Proof.
  split; [|split].
  - intros Hs Hu. unfold __init__, Py.str_in. simpl.
    apply String.eqb_neq in Hs, Hu. rewrite Hs, Hu. reflexivity.
  - intros self X X' batch_size Hinit HX Hne HB.
    apply init_Ok_inv in Hinit. destruct Hinit as [-> _].
    rewrite kneighbors_eq_one_call by (try rewrite HX; congruence).
    unfold Reference.kneighbors_one_call. rewrite HX. reflexivity.
  - intros [-> | ->]; eexists; reflexivity.
Qed.

(** X8: with [ranking='unsupervised'] the negative exemplars do not
    influence the ranking even when the negative index is fitted: every
    score is the positive-branch value [(1 - D_p + 1) / 2] and every
    winning index is [ind_p]; the negative distances and ids are still
    reported in the diagnostics. *)
Theorem unsupervised_ignores_negative_index (self : t row) (X : list row)
  (batch_size : Z) (score : list Q) (ind : list Z) (md : metadata) :
  ranking_ self = "unsupervised"%string ->
  kneighbors self X batch_size = Ok (score, ind, md) ->
  score = map (fun D_p => (1 - D_p + 1) / 2) (dist_p md) /\
  ind = ind_p md /\
  (_fit_method (_mod_n self) <> None ->
   exists D_n I_n,
     dist_n md = Some D_n /\ ind_n md = Some I_n /\
     length D_n = length score /\ length I_n = length score).
Proof.
  intros Hmode H. apply kneighbors_Ok_inv, one_call_Ok_inv in H.
  destruct H as (X' & _ & Hp & Hn).
  destruct (answered_length _ _ _ _ _ Hp) as [HlDp _].
  destruct (_fit_method (_mod_n self)) as [name|].
  - destruct Hn as (D_n & I_n & HDn & HIn & Hneg & Hrule).
    rewrite Hmode in Hrule. simpl in Hrule. destruct Hrule as [-> ->].
    destruct (answered_length _ _ _ _ _ Hneg) as [HlDn HlIn].
    repeat split. intros _. exists D_n, I_n.
    rewrite length_map. repeat split; congruence.
  - destruct Hn as (_ & _ & -> & ->). repeat split. congruence.
Qed.

(** X9: when the halved distances lie in [[0, 1]], no score falls strictly
    between -1/2 and 1/2: a score of the positive branch lies in
    [[1/2, 1]], a score of the negative branch in [[-1, -1/2]]. *)
Theorem score_gap_on_normalized_distances (self : t row) (X : list row)
  (batch_size : Z) (score : list Q) (ind : list Z) (md : metadata) :
  kneighbors self X batch_size = Ok (score, ind, md) ->
  Forall (fun d => 0 <= d <= 1) (dist_p md) ->
  (forall D_n, dist_n md = Some D_n -> Forall (fun d => 0 <= d <= 1) D_n) ->
  Forall (fun s => 1 # 2 <= s <= 1 \/ -1 <= s <= - (1 # 2)) score.
Proof.
  intros H HDp HDn. apply kneighbors_Ok_inv, one_call_Ok_inv in H.
  destruct H as (X' & HX & Hp & Hn).
  assert (Hpos : Forall (fun s => 1 # 2 <= s <= 1 \/ -1 <= s <= - (1 # 2))
                        (map Reference.positive_score (dist_p md))).
  { rewrite Forall_forall in *. intros s Hs. apply in_map_iff in Hs.
    destruct Hs as (d & <- & Hd). specialize (HDp d Hd).
    left. unfold Reference.positive_score. lra_half. }
  destruct (_fit_method (_mod_n self)) as [name|].
  - destruct Hn as (D_n & I_n & HDn' & _ & _ & Hrule).
    specialize (HDn D_n HDn').
    destruct (String.eqb (ranking_ self) "supervised").
    + destruct Hrule as [-> _]. rewrite Forall_forall in *.
      intros s Hs. apply in_map_iff in Hs.
      destruct Hs as ([dp dn] & <- & Hd).
      pose proof (HDp dp (in_combine_l _ _ _ _ Hd)).
      pose proof (HDn dn (in_combine_r _ _ _ _ Hd)).
      unfold Reference.fuse. simpl.
      destruct (Np.gt (1 - dp) (1 - dn)); [left|right]; lra_half.
    + destruct Hrule as [_ ->]. exact Hpos.
  - destruct Hn as (_ & _ & _ & ->). exact Hpos.
Qed.

End RankerEdges.

(** ** The order that [_ranking_score] induces *)

Section ScoreOrder.

Import NearestNeighborRanker.

Local Open Scope Q_scope.

(** X10: without negative distances the score reverses the order of the
    distances: a row that is at most as far from its nearest positive
    exemplar as another row scores at least as high. *)
Theorem positive_score_antitone (d_p score : list Q) (i j : nat)
  (d_i d_j : Q) :
  _ranking_score d_p None = Ok score ->
  nth_error d_p i = Some d_i -> nth_error d_p j = Some d_j ->
  d_i <= d_j ->
  exists s_i s_j,
    nth_error score i = Some s_i /\ nth_error score j = Some s_j /\
    s_j <= s_i.
Proof.
  intros H Hi Hj Hle. rewrite ranking_score_positive in H.
  injection H as <-.
  exists (Reference.positive_score d_i), (Reference.positive_score d_j).
  rewrite !nth_error_map, Hi, Hj. repeat split.
  unfold Reference.positive_score. lra_half.
Qed.

(** X11: with negative distances of the same length, two rows that take
    the same branch are ordered by the distance of that branch: in the
    positive branch the nearer row scores at least as high, in the negative
    branch the row nearer to its negative exemplar scores at most as
    high. *)
Theorem supervised_score_order (d_p d_n score : list Q) (i j : nat)
  (p_i p_j n_i n_j : Q) :
  length d_p = length d_n ->
  _ranking_score d_p (Some d_n) = Ok score ->
  nth_error d_p i = Some p_i -> nth_error d_p j = Some p_j ->
  nth_error d_n i = Some n_i -> nth_error d_n j = Some n_j ->
  exists s_i s_j,
    nth_error score i = Some s_i /\ nth_error score j = Some s_j /\
    (1 - p_i > 1 - n_i -> 1 - p_j > 1 - n_j -> p_i <= p_j -> s_j <= s_i) /\
    (~ 1 - p_i > 1 - n_i -> ~ 1 - p_j > 1 - n_j -> n_i <= n_j ->
     s_i <= s_j).
Proof.
  intros Hlen H Hpi Hpj Hni Hnj.
  rewrite ranking_score_supervised in H by exact Hlen. injection H as <-.
  exists (Reference.fuse (p_i, n_i)), (Reference.fuse (p_j, n_j)).
  rewrite !nth_error_map.
  rewrite (nth_error_combine _ _ _ _ _ Hpi Hni).
  rewrite (nth_error_combine _ _ _ _ _ Hpj Hnj).
  split; [reflexivity|]. split; [reflexivity|].
  unfold Reference.fuse. simpl.
  destruct (Np.gt (1 - p_i) (1 - n_i)) eqn:Gi;
    [apply gt_true_iff in Gi|apply gt_false_iff in Gi];
    (destruct (Np.gt (1 - p_j) (1 - n_j)) eqn:Gj;
     [apply gt_true_iff in Gj|apply gt_false_iff in Gj]);
    split; intros; try contradiction; lra_half.
Qed.

End ScoreOrder.

(** ** More on [_CategorizerWrapper.train] *)

Lemma str_in_true_iff (x : string) (l : list string) :
  Py.str_in x l = true <-> In x l.
Proof.
  unfold Py.str_in. rewrite existsb_exists. split.
  - intros (s & Hs & He). apply String.eqb_eq in He. subst. exact Hs.
  - intros H. exists x. split; [exact H|apply String.eqb_refl].
Qed.

Lemma str_in_false_iff (x : string) (l : list string) :
  Py.str_in x l = false <-> ~ In x l.
Proof.
  rewrite <- str_in_true_iff. destruct (Py.str_in x l); split; congruence.
Qed.

Section TrainRuns.

Context {row : Type} {be : _CategorizerWrapper.Backend row}.

Import _CategorizerWrapper.

Lemma train_rejected (w : world) (index : list Z) (y : list Q)
  (method : string) (cv : option string) :
  TrainChecks.rejected method cv = true ->
  exists msg, train index y method cv w = (Raise (WrongParameter msg), w).
Proof.
  unfold TrainChecks.rejected, train. intros H.
  destruct (Py.str_in method ["ensemble-stacking"; "MLPClassifier"]%string);
    [eexists; reflexivity|].
  destruct (Py.str_in method ["LinearSVC"; "LogisticRegression"; "xgboost";
                              "NearestCentroid"; "NearestNeighbor"]%string);
    [|eexists; reflexivity].
  destruct (negb (is_None cv)
            && Py.str_in method ["NearestNeighbor"; "NearestCentroid"]%string);
    [eexists; reflexivity|].
  cbn [orb negb] in H. rewrite H. eexists. reflexivity.
Qed.

Lemma train_accepted (w : world) (index : list Z) (y : list Q)
  (method : string) (cv : option string) :
  TrainChecks.rejected method cv = false ->
  train index y method cv w
  = match Np.take (data (fst w)) index with
    | Raise e => (Raise e, w)
    | Ok X_train =>
        match _build_estimator installed method cv (cv_scoring (fst w))
                               (cv_n_folds (fst w)) with
        | Raise e => (Raise e, w)
        | Ok c =>
            let dir := model_dir (fst w) in
            let em := TrainChecks.eval_metric method cv in
            match estimator_fit c X_train y em with
            | Raise e => (Raise e, (fst w, snd w ++ [SetupModel dir; Fit c em]))
            | Ok _ =>
                (Ok (c, y),
                 (set_cmod c
                    (set_mid (fst (setup_model dir))
                       (set_pars {| method := method; index := index; y := y |}
                                 (fst w))),
                  snd w ++ [SetupModel dir; Fit c em;
                            Dump (snd (setup_model dir)) "model";
                            Dump (snd (setup_model dir)) "pars"]))
            end
        end
    end.
Proof.
  unfold TrainChecks.rejected. intros H.
  apply orb_false_iff in H. destruct H as [H H4].
  apply orb_false_iff in H. destruct H as [H H3].
  apply orb_false_iff in H. destruct H as [H1 H2].
  apply negb_false_iff in H2. apply negb_false_iff in H4.
  assert (Hens : String.eqb method "ensemble-stacking" = false).
  { unfold Py.str_in in H1. simpl in H1. apply orb_false_iff in H1. tauto. }
  destruct w as [self tr]. unfold train, TrainChecks.eval_metric.
  rewrite H1, H2, H3, H4, Hens.
  unfold when, bindA, ret, raise, get, lift, emit, assign, modify.
  cbn [negb andb fst snd].
  destruct (Np.take (data self) index) as [X_train|e]; [|reflexivity].
  destruct (_build_estimator installed method cv (cv_scoring self)
                             (cv_n_folds self)) as [c|e]; [|reflexivity].
  destruct (setup_model (model_dir self)) as [m d]. cbn [fst snd].
  destruct (estimator_fit c X_train y _) as [u|e].
  - rewrite <- !app_assoc. reflexivity.
  - rewrite <- !app_assoc. reflexivity.
Qed.

(** X12: [train] accepts only the five methods [LinearSVC],
    [LogisticRegression], [xgboost], [NearestCentroid] and
    [NearestNeighbor] and only the values [None], ['fast'] and ['full'] of
    [cv]: anything else raises [WrongParameter] and leaves the wrapper and
    the outside world untouched. *)
Theorem train_rejects_unsupported (w : world) (index : list Z) (y : list Q)
  (method : string) (cv : option string) :
  ~ In method ["LinearSVC"; "LogisticRegression"; "xgboost";
               "NearestCentroid"; "NearestNeighbor"]%string
  \/ (exists c, cv = Some c /\ c <> "fast"%string /\ c <> "full"%string) ->
  exists msg, train index y method cv w = (Raise (WrongParameter msg), w).
Proof.
  intros H. apply train_rejected. unfold TrainChecks.rejected.
  destruct H as [Hm | (c & -> & Hfast & Hfull)].
  - apply str_in_false_iff in Hm. rewrite Hm. simpl negb.
    rewrite orb_true_r. reflexivity.
  - assert (Hc : Py.str_in c ["fast"; "full"]%string = false).
    { apply str_in_false_iff. simpl. intuition congruence. }
    rewrite Hc. simpl negb. apply orb_true_r.
Qed.

(** X13: when [train] returns, the method and [cv] were admissible, the
    estimator is the one [_build_estimator] chose and its [fit] returned on
    the rows [data[index]] and the labels [y]; the outside world has seen,
    in this order, the model directory set up, the fit, the dump of the
    model and the dump of the parameters; and the wrapper holds the new
    model id, the estimator and the parameters [method], [index], [y]. *)
Theorem train_success (w w' : world) (index : list Z) (y Y : list Q)
  (method : string) (cv : option string) (c : estimator) :
  train index y method cv w = (Ok (c, Y), w') ->
  In method ["LinearSVC"; "LogisticRegression"; "xgboost";
             "NearestCentroid"; "NearestNeighbor"]%string /\
  (cv = None \/ cv = Some "fast"%string \/ cv = Some "full"%string) /\
  Y = y /\
  exists X_train,
    Np.take (data (fst w)) index = Ok X_train /\
    _build_estimator installed method cv (cv_scoring (fst w))
                     (cv_n_folds (fst w)) = Ok c /\
    estimator_fit c X_train y (TrainChecks.eval_metric method cv) = Ok tt /\
    let dir := model_dir (fst w) in
    fst w' = set_cmod c
               (set_mid (fst (setup_model dir))
                  (set_pars {| method := method; index := index; y := y |}
                            (fst w))) /\
    snd w' = snd w ++ [SetupModel dir;
                       Fit c (TrainChecks.eval_metric method cv);
                       Dump (snd (setup_model dir)) "model";
                       Dump (snd (setup_model dir)) "pars"].
Proof.
  intros H. destruct (TrainChecks.rejected method cv) eqn:Hrej.
  - destruct (train_rejected w index y method cv Hrej) as (msg & Hr).
    rewrite Hr in H. discriminate.
  - rewrite (train_accepted w index y method cv Hrej) in H.
    unfold TrainChecks.rejected in Hrej.
    apply orb_false_iff in Hrej. destruct Hrej as [Hrej H4].
    apply orb_false_iff in Hrej. destruct Hrej as [Hrej _].
    apply orb_false_iff in Hrej. destruct Hrej as [_ H2].
    apply negb_false_iff in H2. apply negb_false_iff in H4.
    split; [apply str_in_true_iff; exact H2|]. split.
    { destruct cv as [cname|]; [|auto]. apply str_in_true_iff in H4.
      simpl in H4. destruct H4 as [<-|[<-|[]]]; auto. }
    destruct (Np.take (data (fst w)) index) as [X_train|e]; [|discriminate].
    destruct (_build_estimator installed method cv (cv_scoring (fst w))
                               (cv_n_folds (fst w))) as [c0|e];
      [|discriminate].
    cbv zeta in H.
    destruct (estimator_fit c0 X_train y (TrainChecks.eval_metric method cv))
      as [[]|e] eqn:Hfit; [|discriminate].
    injection H as <- <- <-.
    split; [reflexivity|]. exists X_train. cbn [fst snd]. auto.
Qed.

Lemma build_estimator_needs_extra (pk : packages) (method : string)
  (cv : option string) (scoring : string) (folds : Z) :
  freediscovery_extra pk = false ->
  TrainChecks.rejected method cv = false ->
  method = "xgboost"%string \/ cv <> None ->
  exists pkg,
    _build_estimator pk method cv scoring folds
    = Raise (OptionalDependencyMissing pkg).
Proof.
  intros Hextra Hrej Hneed. unfold TrainChecks.rejected in Hrej.
  apply orb_false_iff in Hrej. destruct Hrej as [Hrej _].
  apply orb_false_iff in Hrej. destruct Hrej as [Hrej H3].
  apply orb_false_iff in Hrej. destruct Hrej as [_ H2].
  apply negb_false_iff in H2. apply str_in_true_iff in H2.
  simpl in H2.
  destruct H2 as [<-|[<-|[<-|[<-|[<-|[]]]]]];
    unfold _build_estimator, need; cbn [String.eqb Ascii.eqb Bool.eqb];
    rewrite ?Hextra.
  - destruct cv; [eexists; reflexivity|].
    destruct Hneed as [Hx|Hcv]; [discriminate|congruence].
  - destruct cv; [eexists; reflexivity|].
    destruct Hneed as [Hx|Hcv]; [discriminate|congruence].
  - destruct (xgboost pk); destruct cv; eexists; reflexivity.
  - destruct cv; [discriminate H3|].
    destruct Hneed as [Hx|Hcv]; [discriminate|congruence].
  - destruct cv; [discriminate H3|].
    destruct Hneed as [Hx|Hcv]; [discriminate|congruence].
Qed.

(** X15: without the optional package [freediscovery_extra], [train] with
    cross-validation or with the method [xgboost] always raises and leaves
    the wrapper and the outside world untouched; when the method and [cv]
    are admissible and the rows [data[index]] exist, the exception is
    [OptionalDependencyMissing]. *)
Theorem train_needs_freediscovery_extra (w : world) (index : list Z)
  (y : list Q) (method : string) (cv : option string) :
  freediscovery_extra installed = false ->
  method = "xgboost"%string \/ cv <> None ->
  exists e,
    train index y method cv w = (Raise e, w) /\
    (TrainChecks.rejected method cv = false ->
     (exists X_train, Np.take (data (fst w)) index = Ok X_train) ->
     exists pkg, e = OptionalDependencyMissing pkg).
Proof.
  intros Hextra Hneed. destruct (TrainChecks.rejected method cv) eqn:Hrej.
  - destruct (train_rejected w index y method cv Hrej) as (msg & Hr).
    eexists. split; [exact Hr|]. discriminate.
  - rewrite (train_accepted w index y method cv Hrej).
    destruct (Np.take (data (fst w)) index) as [X_train|e0].
    + destruct (build_estimator_needs_extra installed method cv
                  (cv_scoring (fst w)) (cv_n_folds (fst w))
                  Hextra Hrej Hneed) as (pkg & ->).
      eexists. split; [reflexivity|]. eauto.
    + eexists. split; [reflexivity|]. intros _ (X_train & HX). discriminate.
Qed.

End TrainRuns.

(** ** Dictionaries *)

Section DictLemmas.

Context {K V : Type} (eqb : K -> K -> bool).
Hypothesis eqb_spec : forall a b, eqb a b = true <-> a = b.

Lemma dict_get_set (k k' : K) (v : V) (d : list (K * V)) :
  Dict.get eqb k (Dict.set eqb k' v d)
  = if eqb k k' then Some v else Dict.get eqb k d.
Proof.
  induction d as [|[k1 v1] d IH]; simpl; [reflexivity|].
  destruct (eqb k' k1) eqn:E1; simpl.
  - apply eqb_spec in E1. subst k1. destruct (eqb k k'); reflexivity.
  - rewrite IH. destruct (eqb k k1) eqn:E2; [|reflexivity].
    destruct (eqb k k') eqn:E3; [|reflexivity].
    apply eqb_spec in E2, E3. rewrite <- E2, <- E3 in E1.
    assert (eqb k k = true) by (apply eqb_spec; reflexivity). congruence.
Qed.

(** After a run of assignments with distinct keys, every assigned key holds
    its value and every other key holds what it held before. *)
Lemma dict_get_assignments (l : list (K * V)) (d : list (K * V)) :
  NoDup (map fst l) ->
  (forall k v, In (k, v) l ->
     Dict.get eqb k (fold_left (fun d kv => Dict.set eqb (fst kv) (snd kv) d)
                               l d) = Some v) /\
  (forall k, ~ In k (map fst l) ->
     Dict.get eqb k (fold_left (fun d kv => Dict.set eqb (fst kv) (snd kv) d)
                               l d) = Dict.get eqb k d).
Proof.
  revert d. induction l as [|[k1 v1] l IH]; intros d Hnd; simpl.
  - split; [intros k v []|auto].
  - inversion Hnd as [|? ? Hk1 Hnd']; subst.
    destruct (IH (Dict.set eqb k1 v1 d) Hnd') as [IHin IHout]. split.
    + intros k v [Heq|Hin].
      * injection Heq as <- <-. rewrite IHout by exact Hk1.
        rewrite dict_get_set.
        assert (eqb k1 k1 = true) as -> by (apply eqb_spec; reflexivity).
        reflexivity.
      * apply IHin. exact Hin.
    + intros k Hk. rewrite IHout by tauto. rewrite dict_get_set.
      destruct (eqb k k1) eqn:E; [|reflexivity].
      apply eqb_spec in E. subst. tauto.
Qed.

End DictLemmas.

Lemma NoDup_fst_functional {A B : Type} (l : list (A * B)) (a : A) (b b' : B) :
  NoDup (map fst l) -> In (a, b) l -> In (a, b') l -> b = b'.
Proof.
  induction l as [|[a1 b1] l IH]; simpl; intros Hnd H1 H2; [destruct H1|].
  inversion Hnd as [|? ? Hnot Hnd']; subst.
  destruct H1 as [E1|H1], H2 as [E2|H2].
  - congruence.
  - injection E1 as -> ->. exfalso. apply Hnot.
    apply (in_map fst) in H2. exact H2.
  - injection E2 as -> ->. exfalso. apply Hnot.
    apply (in_map fst) in H1. exact H1.
  - eauto.
Qed.

Lemma getitem_nonneg {A : Type} (a : list A) (j : Z) (x : A) :
  0 <= j -> Np.getitem a j = Ok x -> nth_error a (Z.to_nat j) = Some x.
Proof.
  intros Hj. unfold Np.getitem.
  replace (j <? 0) with false by (symmetry; apply Z.ltb_ge; lia).
  destruct (_ && _); [|discriminate].
  destruct (nth_error a (Z.to_nat j)); [|discriminate].
  intros [= ->]. reflexivity.
Qed.

(** ** explain_binary_categorization *)

Section Explanation.

Import Explain.

Local Open Scope Q_scope.

Lemma invert_as_assignments (vocabulary : list (string * Z))
  (d : list (Z * string)) :
  fold_left (fun d item => Dict.set Z.eqb (snd item) (fst item) d)
            vocabulary d
  = fold_left (fun d kv => Dict.set Z.eqb (fst kv) (snd kv) d)
              (map (fun item => (snd item, fst item)) vocabulary) d.
Proof.
  revert d. induction vocabulary as [|item v IH]; intros d; simpl;
    [reflexivity|apply IH].
Qed.

Lemma invert_get (vocabulary : list (string * Z)) (key : string) (j : Z) :
  NoDup (map snd vocabulary) -> In (key, j) vocabulary ->
  Dict.get Z.eqb j (invert vocabulary) = Some key.
Proof.
  intros Hnd Hin. unfold invert. rewrite invert_as_assignments.
  assert (Hnd' : NoDup (map fst (map (fun item : string * Z =>
                                        (snd item, fst item)) vocabulary))).
  { rewrite map_map. simpl. exact Hnd. }
  destruct (dict_get_assignments Z.eqb Z.eqb_eq _ [] Hnd') as [Hget _].
  apply Hget. apply in_map_iff. exists (key, j). auto.
Qed.

(** When every item finds its key, the loop is a run of assignments. *)
Lemma fill_as_assignments (vocabulary_inv : list (Z * string))
  (keyof : Z -> string) (items : list (Z * Q)) (d : list (string * Q)) :
  (forall ind v, In (ind, v) items ->
     Dict.get Z.eqb ind vocabulary_inv = Some (keyof ind)) ->
  fill vocabulary_inv items d
  = Done (fold_left (fun d kv => Dict.set String.eqb (fst kv) (snd kv) d)
                    (map (fun item => (keyof (fst item), snd item)) items) d).
Proof.
  revert d. induction items as [|[ind v] items IH]; intros d H; simpl;
    [reflexivity|].
  rewrite (H ind v) by (left; reflexivity).
  apply IH. intros ind' v' Hin. apply (H ind' v'). right. exact Hin.
Qed.

Lemma map_fst_combine_same_length {A B : Type} (a : list A) (b : list B) :
  length a = length b -> map fst (combine a b) = a.
Proof.
  revert b. induction a as [|x a IH]; intros [|y b] H; simpl in *;
    try discriminate; [reflexivity|].
  f_equal. apply IH. congruence.
Qed.

(** X16: for a [LogisticRegression] estimator, a row of shape [(1, N)]
    without repeated column indices and a vocabulary of [N] words with
    distinct indices that names every stored column,
    [explain_binary_categorization] returns a dictionary in which a word
    holds the product of the row's value in the word's column and the
    coefficient of that column, and a word whose column is not stored in
    the row is absent. *)
Theorem explain_weights (est : estimator) (vocabulary : list (string * Z))
  (X_row : csr_matrix) (N : nat) (w : list Q) (others : list (list Q)) :
  shape X_row = [1; Z.of_nat N]%Z ->
  length vocabulary = N ->
  type_name est = "LogisticRegression"%string ->
  coef_ est = w :: others -> length w = N ->
  length (data X_row) = length (indices X_row) ->
  NoDup (map fst vocabulary) -> NoDup (map snd vocabulary) ->
  NoDup (indices X_row) ->
  (forall j, In j (indices X_row) ->
     (0 <= j < Z.of_nat N)%Z /\ exists key, In (key, j) vocabulary) ->
  exists weights_dict,
    explain_binary_categorization est vocabulary X_row = Done weights_dict /\
    forall key j, In (key, j) vocabulary ->
      (forall k x,
         nth_error (indices X_row) k = Some j ->
         nth_error (data X_row) k = Some x ->
         exists c,
           nth_error w (Z.to_nat j) = Some c /\
           Dict.get String.eqb key weights_dict = Some (x * c)) /\
      (~ In j (indices X_row) ->
       Dict.get String.eqb key weights_dict = None).
Proof.
  intros Hshape Hvoc Htype Hcoef Hw Hdata Hkeys Hvals Hind Hcover.
  set (keyof := fun ind => match Dict.get Z.eqb ind (invert vocabulary) with
                           | Some key => key
                           | None => ""%string
                           end).
  assert (Hkeyof : forall key j, In (key, j) vocabulary -> keyof j = key).
  { intros key j Hin. unfold keyof. rewrite (invert_get _ _ _ Hvals Hin).
    reflexivity. }
  assert (Hrange : Forall (fun j => (0 <= j < Z.of_nat (length w))%Z)
                          (indices X_row)).
  { rewrite Forall_forall. intros j Hj. rewrite Hw. apply Hcover. exact Hj. }
  destruct (take_in_range w (indices X_row) Hrange) as (cs & Hcs).
  assert (Hlcs : length cs = length (indices X_row))
    by (apply (take_length _ _ _ Hcs)).
  assert (Hweights : weights_of est X_row
                     = Ok (map (fun dc => fst dc * snd dc)
                               (combine (data X_row) cs))).
  { unfold weights_of. rewrite Hcoef.
    change (Np.getitem (w :: others) 0%Z) with (Ok w). cbn [bind].
    rewrite Hcs. cbn [bind].
    rewrite broadcast2_same_length by congruence. reflexivity. }
  set (weights := map (fun dc : Q * Q => fst dc * snd dc)
                      (combine (data X_row) cs)) in *.
  assert (Hlw : length (indices X_row) = length weights).
  { unfold weights. rewrite length_map, length_combine, Hdata, Hlcs.
    rewrite Nat.min_id. reflexivity. }
  set (items := combine (indices X_row) weights).
  assert (Hfound : forall ind v, In (ind, v) items ->
             Dict.get Z.eqb ind (invert vocabulary) = Some (keyof ind)).
  { intros ind v Hin. apply in_combine_l in Hin.
    destruct (Hcover ind Hin) as (_ & key & Hkey).
    rewrite (Hkeyof key ind Hkey). apply invert_get; assumption. }
  pose proof (fill_as_assignments (invert vocabulary) keyof items [] Hfound)
    as Hfill.
  set (assigned := map (fun item : Z * Q => (keyof (fst item), snd item))
                       items) in *.
  assert (Hfst : map fst assigned = map keyof (indices X_row)).
  { unfold assigned, items. rewrite map_map. simpl.
    rewrite <- (map_map fst keyof).
    rewrite map_fst_combine_same_length by exact Hlw. reflexivity. }
  assert (Hnd : NoDup (map fst assigned)).
  { rewrite Hfst. apply NoDup_map_NoDup_ForallPairs; [|exact Hind].
    intros i1 i2 H1 H2 Heq.
    destruct (Hcover i1 H1) as (_ & k1 & Hk1).
    destruct (Hcover i2 H2) as (_ & k2 & Hk2).
    rewrite (Hkeyof _ _ Hk1), (Hkeyof _ _ Hk2) in Heq. subst k2.
    eapply NoDup_fst_functional; eauto. }
  destruct (dict_get_assignments String.eqb String.eqb_eq assigned [] Hnd)
    as [Hget Hmiss].
  eexists. split.
  - unfold explain_binary_categorization.
    rewrite Hshape, Hvoc, Htype, Hcoef. cbn [ncols]. rewrite Hw.
    rewrite !Z.eqb_refl. cbn [negb String.eqb Ascii.eqb Bool.eqb].
    rewrite Hweights. exact Hfill.
  - intros key j Hkey. split.
    + intros k x Hk Hx.
      destruct (mapM_nth_error _ _ _ _ _ Hcs Hk) as (c & Hc & Hck).
      destruct (Hcover j (nth_error_In _ _ Hk)) as (Hj & _).
      apply getitem_nonneg in Hc; [|lia].
      exists c. split; [exact Hc|]. apply Hget.
      unfold assigned. apply in_map_iff. exists (j, x * c). split.
      * simpl. rewrite (Hkeyof key j Hkey). reflexivity.
      * unfold items. apply (nth_error_In _ k).
        apply nth_error_combine; [exact Hk|].
        unfold weights. rewrite nth_error_map.
        rewrite (nth_error_combine _ _ _ _ _ Hx Hck). reflexivity.
    + intros Hnot. rewrite Hmiss; [reflexivity|].
      rewrite Hfst. intros Hin. apply in_map_iff in Hin.
      destruct Hin as (i & Hi & Hin). apply Hnot.
      destruct (Hcover i Hin) as (_ & ki & Hki).
      rewrite (Hkeyof _ _ Hki) in Hi. subst ki.
      rewrite (NoDup_fst_functional _ _ _ _ Hkeys Hkey Hki). exact Hin.
Qed.

(** X17: [explain_binary_categorization] checks the row before the
    estimator: a row that is not of shape [(1, N)] or whose width differs
    from the size of the vocabulary raises [ValueError] whatever the
    estimator is; past these checks every estimator other than
    [LogisticRegression] raises [NotImplementedError], and a
    [LogisticRegression] whose coefficient matrix has another width raises
    [ValueError]. *)
Theorem explain_rejects (est : estimator) (vocabulary : list (string * Z))
  (X_row : csr_matrix) :
  ((forall n_cols, shape X_row <> [1; n_cols]%Z) \/
   (exists n_cols, shape X_row = [1; n_cols]%Z /\
                   n_cols <> Z.of_nat (length vocabulary)) ->
   exists msg,
     explain_binary_categorization est vocabulary X_row
     = Fail (Builtin (ValueError msg))) /\
  (shape X_row = [1; Z.of_nat (length vocabulary)]%Z ->
   (type_name est <> "LogisticRegression"%string ->
    explain_binary_categorization est vocabulary X_row
    = Fail NotImplementedError) /\
   (type_name est = "LogisticRegression"%string ->
    ncols (coef_ est) <> Z.of_nat (length vocabulary) ->
    exists msg,
      explain_binary_categorization est vocabulary X_row
      = Fail (Builtin (ValueError msg)))).
Proof.
  unfold explain_binary_categorization. split.
  - intros [Hshape | (n_cols & Hshape & Hn)].
    + destruct (shape X_row) as [|r [|c [|? ?]]]; try (eexists; reflexivity).
      destruct (r =? 1)%Z eqn:Hr; [|eexists; reflexivity].
      apply Z.eqb_eq in Hr. subst r. destruct (Hshape c). reflexivity.
    + rewrite Hshape. cbn [Z.eqb Pos.eqb negb].
      apply Z.eqb_neq in Hn. rewrite Hn. eexists. reflexivity.
  - intros Hshape. rewrite Hshape. cbn [Z.eqb Pos.eqb negb].
    rewrite Z.eqb_refl. cbn [negb]. split.
    + intros Htype. apply String.eqb_neq in Htype. rewrite Htype. reflexivity.
    + intros Htype Hcols. apply String.eqb_eq in Htype. rewrite Htype.
      apply not_eq_sym, Z.eqb_neq in Hcols. rewrite Hcols.
      eexists. reflexivity.
Qed.

End Explanation.

(** ** What every ranker satisfies *)

Section RankerStates.

Context {row : Type} {sk : Sklearn row}.

Import NearestNeighborRanker.

(** X18: whatever calls of [fit] an object built by [__init__] has been
    through, returned or raised, its ranking mode is one of the two valid
    ones (so the final [raise ValueError] of [kneighbors] is never
    reached), an index that is fitted has its array of global ids, and the
    negative index is never fitted without the positive one. *)
Theorem ranker_invariants (self : t row) :
  Lifecycle.reachable self ->
  (ranking_ self = "supervised"%string \/
   ranking_ self = "unsupervised"%string) /\
  (_fit_method (_mod_p self) <> None -> _index_p self <> None) /\
  (_fit_method (_mod_n self) <> None ->
   _index_n self <> None /\ _fit_method (_mod_p self) <> None).
Proof.
  induction 1 as [ranking self Hinit | self X y _ IH].
  - apply init_Ok_inv in Hinit. destruct Hinit as [-> Hmode].
    simpl. split; [exact Hmode|]. split; intros H; congruence.
  - destruct IH as (Hmode & Hp & Hn).
    unfold fit, bindA, lift, modify, raise, ret.
    destruct (check_array X) as [X'|e]; [|simpl; auto].
    destruct (_unzip_relevant (Np.arange (length X')) y) as [[pos neg]|e];
      [|simpl; auto].
    destruct pos as [|p pos]; cbn [length Nat.ltb Nat.leb].
    { simpl. split; [exact Hmode|]. split; intros H.
      - discriminate.
      - split; [discriminate|tauto]. }
    destruct (Np.take X' (p :: pos)) as [X_p|e].
    + destruct neg as [|n neg]; cbn [length Nat.ltb Nat.leb].
      * simpl. split; [exact Hmode|]. split; intros H;
          [|split]; discriminate.
      * destruct (Np.take X' (n :: neg)) as [X_n|e]; simpl;
          (split; [exact Hmode|]); split; intros H;
          try split; discriminate.
    + simpl. split; [exact Hmode|]. split; intros H.
      * discriminate.
      * split; [discriminate|tauto].
Qed.

End RankerStates.

(** * More concrete runs *)

Section MoreRuns.

Import NearestNeighborRanker.
Import OneFeature.

Local Open Scope Q_scope.

Lemma chunk_kneighbors_blockwise_witness :
  Chunking.blocks X_query 2 = [[1; 0]; [-1; 9 # 10]; [-1 # 4]] /\
  concat (Chunking.blocks X_query 2) = X_query.
Proof.
  split; [reflexivity|].
  apply (chunk_kneighbors_blockwise (fun X : list Q => Ok (X, X)) X_query 2).
  - lia.
  - discriminate.
Defined.

Lemma fit_indexes_labelled_rows_witness :
  exists self', fit X_train y_train (fresh "unsupervised") = (Ok tt, self').
Proof.
  destruct (fit_indexes_labelled_rows X_train X_train y_train
              (fresh "unsupervised")) as (self' & H & _).
  - reflexivity.
  - reflexivity.
  - apply Exists_cons_hd. reflexivity.
  - exists self'. exact H.
Defined.

Lemma winning_index_is_training_row_witness :
  Forall (fun i => (0 <= i < Z.of_nat (length y_train))%Z) winners.
Proof.
  apply (winning_index_is_training_row (fresh "supervised") ranker X_train
           y_train X_query 2 scores winners diagnostics).
  - reflexivity.
  - reflexivity.
Defined.

Lemma refit_without_negatives_keeps_negative_index_witness :
  kneighbors (snd (fit [1; 1 # 2] [1; 1] ranker)) [9 # 10; 0] 1
  = Raise IndexError.
Proof.
  apply (refit_without_negatives_keeps_negative_index ranker
           (snd (fit [1; 1 # 2] [1; 1] ranker)) [1; 1 # 2] [1; 1]
           [9 # 10; 0] [9 # 10; 0] 1
           [(1 # 10, 0%Z); (1 # 2, 1%Z)] [(19 # 10, 0%Z); (1, 0%Z)]
           [0; 1]%Z [0; 1]%Z).
  - simpl. discriminate.
  - reflexivity.
  - reflexivity.
  - reflexivity.
  - discriminate.
  - lia.
  - reflexivity.
  - reflexivity.
  - reflexivity.
  - reflexivity.
Defined.

Lemma unsupervised_ignores_negative_index_witness :
  exists score ind md,
    kneighbors (Reference.with_ranking "unsupervised" ranker) X_query 2
    = Ok (score, ind, md) /\ ind = ind_p md.
Proof.
  eexists _, _, _. split; [reflexivity|].
  refine (proj1 (proj2 (unsupervised_ignores_negative_index
                          (Reference.with_ranking "unsupervised" ranker)
                          X_query 2 _ _ _ _ _))).
  - reflexivity.
  - reflexivity.
Defined.

Lemma score_gap_on_normalized_distances_witness :
  Forall (fun s => 1 # 2 <= s <= 1 \/ -1 <= s <= - (1 # 2)) scores.
Proof.
  apply (score_gap_on_normalized_distances ranker X_query 2
           scores winners diagnostics).
  - reflexivity.
  - simpl. repeat (apply Forall_cons; [unfold Qle; simpl; lia|]).
    apply Forall_nil.
  - simpl. intros D_n [= <-].
    repeat (apply Forall_cons; [unfold Qle; simpl; lia|]).
    apply Forall_nil.
Defined.

Lemma positive_score_antitone_witness :
  exists s_i s_j,
    nth_error [7 # 8; 3 # 4] 0 = Some s_i /\
    nth_error [7 # 8; 3 # 4] 1 = Some s_j /\ s_j <= s_i.
Proof.
  apply (positive_score_antitone [1 # 4; 1 # 2] [7 # 8; 3 # 4] 0 1
           (1 # 4) (1 # 2)).
  - reflexivity.
  - reflexivity.
  - reflexivity.
  - unfold Qle. simpl. lia.
Defined.

Lemma supervised_score_order_witness :
  exists s_i s_j,
    nth_error [7 # 8; 3 # 4] 0 = Some s_i /\
    nth_error [7 # 8; 3 # 4] 1 = Some s_j.
Proof.
  destruct (supervised_score_order [1 # 4; 1 # 2] [1 # 2; 1] [7 # 8; 3 # 4]
              0 1 (1 # 4) (1 # 2) (1 # 2) 1)
    as (s_i & s_j & Hi & Hj & _).
  - reflexivity.
  - reflexivity.
  - reflexivity.
  - reflexivity.
  - reflexivity.
  - reflexivity.
  - exists s_i, s_j. auto.
Defined.

Lemma train_rejects_unsupported_witness :
  exists msg,
    _CategorizerWrapper.train [0; 1; 2]%Z y_train "ensemble-stacking" None
      (wrapper, [])
    = (Raise (WrongParameter msg), (wrapper, [])).
Proof.
  apply (train_rejects_unsupported (wrapper, []) [0; 1; 2]%Z y_train
           "ensemble-stacking" None).
  left. simpl. intros H. repeat (destruct H as [H|H]; [discriminate H|]).
  exact H.
Defined.

Lemma train_success_witness :
  exists w',
    _CategorizerWrapper.train [0; 1; 2]%Z y_train "NearestNeighbor" None
      (wrapper, [])
    = (Ok (_CategorizerWrapper.NearestNeighborRanker_, y_train), w') /\
    _CategorizerWrapper.cmod (fst w')
    = Some _CategorizerWrapper.NearestNeighborRanker_.
Proof.
  exists (snd (_CategorizerWrapper.train [0; 1; 2]%Z y_train
                 "NearestNeighbor" None (wrapper, []))).
  split; [reflexivity|].
  destruct (train_success (wrapper, [])
              (snd (_CategorizerWrapper.train [0; 1; 2]%Z y_train
                      "NearestNeighbor" None (wrapper, [])))
              [0; 1; 2]%Z y_train y_train "NearestNeighbor" None
              _CategorizerWrapper.NearestNeighborRanker_)
    as (_ & _ & _ & X_train & _ & _ & _ & Hw & _).
  - reflexivity.
  - rewrite Hw. reflexivity.
Defined.

Lemma train_needs_freediscovery_extra_witness :
  exists e,
    _CategorizerWrapper.train [0; 1; 2]%Z y_train "LinearSVC"
      (Some "fast"%string) (wrapper, [])
    = (Raise e, (wrapper, [])).
Proof.
  destruct (train_needs_freediscovery_extra (wrapper, []) [0; 1; 2]%Z y_train
              "LinearSVC" (Some "fast"%string)) as (e & H & _).
  - reflexivity.
  - right. discriminate.
  - exists e. exact H.
Defined.

Lemma explain_weights_witness :
  exists weights_dict,
    Explain.explain_binary_categorization
      {| Explain.type_name := "LogisticRegression";
         Explain.coef_ := [[2; -1; 1 # 2]] |}
      [("a", 0); ("b", 2); ("c", 1)]%string%Z
      {| Explain.shape := [1; 3]%Z; Explain.indices := [2; 0]%Z;
         Explain.data := [3; 1 # 2] |}
    = Explain.Done weights_dict.
Proof.
  destruct (explain_weights
              {| Explain.type_name := "LogisticRegression";
                 Explain.coef_ := [[2; -1; 1 # 2]] |}
              [("a", 0); ("b", 2); ("c", 1)]%string%Z
              {| Explain.shape := [1; 3]%Z; Explain.indices := [2; 0]%Z;
                 Explain.data := [3; 1 # 2] |}
              3 [2; -1; 1 # 2] []) as (d & H & _).
  - reflexivity.
  - reflexivity.
  - reflexivity.
  - reflexivity.
  - reflexivity.
  - reflexivity.
  - simpl. repeat constructor; simpl; intuition discriminate.
  - simpl. repeat constructor; simpl; intuition discriminate.
  - simpl. repeat constructor; simpl; intuition discriminate.
  - simpl. intros j [<-|[<-|[]]]; (split; [lia|]).
    + exists "b"%string. simpl. auto.
    + exists "a"%string. simpl. auto.
  - exists d. exact H.
Defined.

Example explain_run :
  Explain.explain_binary_categorization
    {| Explain.type_name := "LogisticRegression";
       Explain.coef_ := [[2; -1; 1 # 2]] |}
    [("a", 0); ("b", 2); ("c", 1)]%string%Z
    {| Explain.shape := [1; 3]%Z; Explain.indices := [2; 0]%Z;
       Explain.data := [3; 1 # 2] |}
  = Explain.Done [("b"%string, 3 # 2); ("a"%string, 2 # 2)].
Proof. reflexivity. Qed.

Lemma ranker_invariants_witness :
  ranking_ (snd (fit X_train y_train (fresh "supervised")))
  = "supervised"%string \/
  ranking_ (snd (fit X_train y_train (fresh "supervised")))
  = "unsupervised"%string.
Proof.
  apply (ranker_invariants (snd (fit X_train y_train (fresh "supervised")))).
  apply Lifecycle.after_fit.
  apply (Lifecycle.after_init "supervised"). reflexivity.
Defined.

End MoreRuns.
